(** * DaCoS, lab_03: the data processors of [processor/dataprocessor.py]

    A shallow embedding of the three concrete processors
    ([CsvDataProcessor], [TxtDataProcessor], [JSONDataProcessor]) and of the
    helpers they inherit from the abstract [DataProcessor], together with the
    part of the pandas contract that the helpers call into: [DataFrame.drop],
    [DataFrame.sort_values] and [pandas.concat].

    Python objects are mutable and calls may raise, so the methods live in a
    small state-and-exception monad over the processor object and the
    console.  The readers ([pandas.read_csv], [pandas.read_table],
    [pandas.read_json]) touch the file system; they are passed to [read] as a
    record of functions.  [print_result] formats [self.result] with the
    frame's own [__str__], a parameter here.  [sort_by_filter] hands a text to
    the expression parser of [DataFrame.query] and is left out. *)

From Stdlib Require Import String Ascii List Bool Arith ZArith Lia.
From Stdlib Require Import Permutation Sorted.
From Stdlib Require OrderedTypeEx.
Import ListNotations.

Local Open Scope string_scope.
Local Open Scope nat_scope.
Local Open Scope list_scope.

(** ** Exceptions and outcomes *)

Inductive ExceptionType :=
| KeyError
| ValueError
| TypeError
| AttributeError
| InvalidIndexError
| FileNotFoundError
| ParserError
| EmptyDataError
| UnicodeDecodeError.

(** A raised [Exception]: its class and the text that [str(e)] yields. *)
Record Exception := mkException { exc_type : ExceptionType; str : string }.

Inductive Outcome (A : Type) :=
| Return (a : A)
| Raise (e : Exception).
Arguments Return {A} a.
Arguments Raise {A} e.

Definition raise {A} (t : ExceptionType) (msg : string) : Outcome A :=
  Raise (mkException t msg).

(** ** Tables *)

(** A cell of a frame.  [NaN] is the missing value; numbers are kept to the
    integers and text is a byte string, whose order is the code-point order
    Python uses.  The other values a reader can leave in a cell (booleans,
    lists and objects of a JSON record) are not represented, and neither is
    the type of a column: a number stands for its value, whether pandas
    holds it as int64 or float64. *)
Inductive Cell :=
| NaN
| Int (z : Z)
| Str (s : string).

Definition Row := list Cell.

(** A frame: its column labels and its rows, in order.  The row index is not
    kept: [sort_values] permutes it with the rows and
    [concat(..., ignore_index=True)] renumbers it. *)
Record DataFrame := mkDataFrame { columns : list string; rows : list Row }.

Definition isna (c : Cell) : bool :=
  match c with NaN => true | _ => false end.

Definition is_int (c : Cell) : bool :=
  match c with Int _ => true | _ => false end.

Definition is_str (c : Cell) : bool :=
  match c with Str _ => true | _ => false end.

(** Python's [<=] on two cells of the same kind. *)
Definition cell_leb (a b : Cell) : bool :=
  match a, b with
  | Int x, Int y => (x <=? y)%Z
  | Str s, Str t => String.leb s t
  | _, _ => false
  end.

(** Python 3 refuses to order a number against a string: a column of these
    cells can be sorted when its present cells are all numbers or all
    strings. *)
Definition comparable (ks : list Cell) : bool :=
  forallb is_int ks || forallb is_str ks.

Definition sortable (ks : list Cell) : bool :=
  comparable (filter (fun c => negb (isna c)) ks).

Definition mem (c : string) (cs : list string) : bool :=
  existsb (String.eqb c) cs.

Fixpoint nodupb (cs : list string) : bool :=
  match cs with
  | [] => true
  | c :: t => negb (mem c t) && nodupb t
  end.

Definition labels_eqb (a b : list string) : bool :=
  if list_eq_dec string_dec a b then true else false.

(** How many columns carry the label. *)
Fixpoint count (c : string) (cs : list string) : nat :=
  match cs with
  | [] => 0
  | x :: t => if String.eqb c x then S (count c t) else count c t
  end.

(** [row[c]]: the cell of a row under the first column labelled [c]; [NaN]
    when the row has none. *)
Fixpoint cell_of (c : string) (cs : list string) (r : Row) : Cell :=
  match cs, r with
  | x :: cs', v :: r' => if String.eqb c x then v else cell_of c cs' r'
  | _, _ => NaN
  end.

Fixpoint select {A} (mask : list bool) (l : list A) : list A :=
  match mask, l with
  | b :: m, x :: t => if b then x :: select m t else select m t
  | _, _ => []
  end.

Definition nrows (df : DataFrame) : nat := length (rows df).

Definition rectangular (df : DataFrame) : bool :=
  forallb (fun r => Nat.eqb (length r) (length (columns df))) (rows df).

(** [df[c]]: the values of a column, one per row. *)
Definition column (c : string) (df : DataFrame) : list Cell :=
  map (cell_of c (columns df)) (rows df).

(** ** The sorting kernel

    [sort_values] leaves the algorithm to numpy ([kind='quicksort'] unless
    told otherwise), which promises an ordered permutation and nothing about
    ties.  The kernel is therefore an interface: [argsort] followed by
    [take], on items that carry their key; the result is a permutation of
    the items, ascending on the keys when these are comparable. *)

Definition key_le {A} (x y : Cell * A) : Prop := cell_leb (fst x) (fst y) = true.

Class SortKernel := {
  argsort : forall {A : Type}, list (Cell * A) -> list (Cell * A);
  argsort_perm : forall A (l : list (Cell * A)), Permutation (argsort l) l;
  argsort_sorted : forall A (l : list (Cell * A)),
      comparable (map fst l) = true -> Sorted key_le (argsort l)
}.

(** ** pandas *)

Module pandas.
Section Pandas.
Context {K : SortKernel}.

(** [repr] of a label, and of a text that holds single quotes: what
    [str(e)] shows of the argument of a [KeyError]. *)
Definition quoted (s : string) : string := ("'" ++ s ++ "'")%string.

Definition double_quoted (s : string) : string :=
  (String (ascii_of_nat 34) s ++ String (ascii_of_nat 34) EmptyString)%string.

(** [df.drop(labels, axis=1)]: every column carrying one of the labels goes;
    labels that name no column raise [KeyError]. *)
Definition drop (df : DataFrame) (labels : list string) : Outcome DataFrame :=
  match filter (fun l => negb (mem l (columns df))) labels with
  | [] =>
      let mask := map (fun c => negb (mem c labels)) (columns df) in
      Return {| columns := select mask (columns df);
                rows := map (select mask) (rows df) |}
  | missing =>
      raise KeyError
        (double_quoted
           ("[" ++ String.concat ", " (map quoted missing) ++ "] not found in axis"))%string
  end.

(** [nargsort]: missing keys are set aside and placed last; a descending
    sort reverses the items, sorts them ascending and reverses the result. *)
Definition nargsort {A} (items : list (Cell * A)) (ascending : bool) : list (Cell * A) :=
  let non_nans := filter (fun x => negb (isna (fst x))) items in
  let nans := filter (fun x => isna (fst x)) items in
  let indexer :=
    if ascending then argsort non_nans else rev (argsort (rev non_nans)) in
  indexer ++ nans.

(** [df.sort_values(by=[colname], ascending=asc)]: the label must name
    exactly one column, and its present values must be comparable.  The text
    of the [TypeError] names the two types in the order of the pair that was
    compared, which is the kernel's business; one order stands for both. *)
Definition sort_values (df : DataFrame) (colname : string) (ascending : bool)
  : Outcome DataFrame :=
  match count colname (columns df) with
  | 0 => raise KeyError (quoted colname)
  | 1 =>
      let k := column colname df in
      if sortable k then
        Return {| columns := columns df;
                  rows := map snd (nargsort (combine k (rows df)) ascending) |}
      else raise TypeError "'<' not supported between instances of 'str' and 'int'"
  | _ => raise ValueError ("The column label '" ++ colname ++ "' is not unique.")%string
  end.

(** A row moved onto the labels [u]: cells keep their label, a label the row
    does not have is filled with [NaN]. *)
Definition reindex (u cs : list string) (r : Row) : Row :=
  map (fun c => cell_of c cs r) u.

(** The labels of [cs] appended to [u], in order, unless already there. *)
Definition union (u cs : list string) : list string :=
  u ++ filter (fun c => negb (mem c u)) cs.

Fixpoint omit_none {A} (l : list (option A)) : list A :=
  match l with
  | [] => []
  | Some a :: t => a :: omit_none t
  | None :: t => omit_none t
  end.

(** [pandas.concat(objs, ignore_index=True)]: [None] entries are skipped;
    frames with the same labels are stacked; otherwise the result has the
    union of the labels, which needs them unique in every frame.  pandas also
    brings each stacked column to one type (int64 to float64 when missing
    values or floats join it); cells here carry no type, so the stacked
    numbers stand for their value up to that cast. *)
Definition concat (objs : list (option DataFrame)) : Outcome DataFrame :=
  match omit_none objs with
  | [] => raise ValueError "All objects passed were None"
  | d :: rest =>
      if forallb (fun x => labels_eqb (columns x) (columns d)) rest then
        Return {| columns := columns d; rows := flat_map rows (d :: rest) |}
      else if forallb (fun x => nodupb (columns x)) (d :: rest) then
        let u := fold_left union (map columns rest) (columns d) in
        Return {| columns := u;
                  rows := flat_map (fun x => map (reindex u (columns x)) (rows x))
                                   (d :: rest) |}
      else raise InvalidIndexError "Reindexing only valid with uniquely valued Index objects"
  end.

End Pandas.
End pandas.

(** ** A reference kernel: stable insertion sort

    What numpy does on short arrays, and what [kind='stable'] asks for. *)

Module Stable.

Fixpoint insert {A} (x : Cell * A) (l : list (Cell * A)) : list (Cell * A) :=
  match l with
  | [] => [x]
  | y :: t => if cell_leb (fst x) (fst y) then x :: y :: t else y :: insert x t
  end.

Fixpoint sort {A} (l : list (Cell * A)) : list (Cell * A) :=
  match l with
  | [] => []
  | x :: t => insert x (sort t)
  end.

End Stable.

(** ** Another kernel: insertion after the ties

    An insertion sort that puts an item behind the items of the same key, so
    that tied items come out in the reverse of their order: as good a kernel
    as the stable one, and a different one wherever keys are tied. *)

Module Unstable.

Fixpoint insert {A} (x : Cell * A) (l : list (Cell * A)) : list (Cell * A) :=
  match l with
  | [] => [x]
  | y :: t => if cell_leb (fst y) (fst x) then y :: insert x t else x :: y :: t
  end.

Fixpoint sort {A} (l : list (Cell * A)) : list (Cell * A) :=
  match l with
  | [] => []
  | x :: t => insert x (sort t)
  end.

End Unstable.

(** ** The processor object and the monad of its methods *)

(** The concrete class of an instance, with the attributes only that class
    has: [separator] is set by [CsvDataProcessor.__init__] alone. *)
Inductive Kind :=
| Csv (separator : string)
| Txt
| JSON.

(** The attributes every [DataProcessor] has. *)
Record Processor := mkProcessor {
  kind : Kind;
  _datasource : string;
  _dataset : option DataFrame;
  result : option DataFrame
}.

(** What a method can see and change: its [self] and the console. *)
Record World := mkWorld { self : Processor; stdout : list string }.

Definition M (A : Type) : Type := World -> Outcome A * World.

Definition ret {A} (a : A) : M A := fun w => (Return a, w).

Definition bind {A B} (m : M A) (k : A -> M B) : M B :=
  fun w => match m w with
           | (Return a, w') => k a w'
           | (Raise e, w') => (Raise e, w')
           end.

Declare Scope py_scope.
Delimit Scope py_scope with py.
Notation "x <- m ;; k" := (bind m (fun x => k))
  (at level 61, m at next level, right associativity) : py_scope.
Notation "m ;; k" := (bind m (fun _ => k))
  (at level 61, right associativity) : py_scope.
Local Open Scope py_scope.

(** A call into a library function that may raise. *)
Definition call {A} (o : Outcome A) : M A := fun w => (o, w).

(** [try: body except Exception as e: handler(e)]; what [body] changed
    before it raised stays changed. *)
Definition try_except {A} (body : M A) (handler : Exception -> M A) : M A :=
  fun w => match body w with
           | (Return a, w') => (Return a, w')
           | (Raise e, w') => handler e w'
           end.

Definition get_self : M Processor := fun w => (Return (self w), w).

Definition with_dataset (p : Processor) (df : DataFrame) : Processor :=
  {| kind := kind p; _datasource := _datasource p;
     _dataset := Some df; result := result p |}.

Definition with_result (p : Processor) (df : DataFrame) : Processor :=
  {| kind := kind p; _datasource := _datasource p;
     _dataset := _dataset p; result := Some df |}.

(** [self._dataset = df] *)
Definition set_dataset (df : DataFrame) : M unit :=
  fun w => (Return tt, {| self := with_dataset (self w) df; stdout := stdout w |}).

(** [self.result = df] *)
Definition set_result (df : DataFrame) : M unit :=
  fun w => (Return tt, {| self := with_result (self w) df; stdout := stdout w |}).

Definition print (line : string) : M unit :=
  fun w => (Return tt, {| self := self w; stdout := stdout w ++ [line] |}).

(** The line feed that ends the label of [print_result]. *)
Definition nl : string := String (ascii_of_nat 10) EmptyString.

(** [str(self.result)]: the text of a frame, or [None]. *)
Definition str_of (to_string : DataFrame -> string) (r : option DataFrame) : string :=
  match r with
  | Some df => to_string df
  | None => "None"
  end.

(** [print(a, b)] writes the two texts with a blank between them. *)
Definition print2 (a b : string) : M unit := print (a ++ " " ++ b)%string.

(** [for t in items: acc = body(t, acc)]. *)
Fixpoint for_each {A B} (items : list A) (acc : B) (body : A -> B -> M B) : M B :=
  match items with
  | [] => ret acc
  | t :: rest => acc' <- body t acc ;; for_each rest acc' body
  end.

(** The readers of pandas, as the file system stands when [read] is called. *)
Record Readers := mkReaders {
  read_csv : string -> string -> Outcome DataFrame;
  read_table : string -> Outcome DataFrame;
  read_json : string -> Outcome DataFrame
}.

(** ** class DataProcessor *)

Module DataProcessor.

Definition __init__ (k : Kind) (datasource : string) : Processor :=
  {| kind := k; _datasource := datasource; _dataset := None; result := None |}.

Definition sort_data_by_col `{SortKernel} (df : DataFrame) (colname : string)
  (asc : bool) : M DataFrame :=
  call (pandas.sort_values df colname asc).

(** [df] is [self._dataset], which is [None] until a [read] has set it. *)
Definition remove_col_by_name (df : option DataFrame) (colname : list string)
  : M DataFrame :=
  match df with
  | Some d => call (pandas.drop d colname)
  | None => call (raise AttributeError "'NoneType' object has no attribute 'drop'")
  end.

End DataProcessor.
Import DataProcessor.

(** [self.separator]: only a [CsvDataProcessor] has the attribute. *)
Definition get_separator : M string :=
  fun w => match kind (self w) with
           | Csv separator => (Return separator, w)
           | _ => (raise AttributeError "object has no attribute 'separator'", w)
           end.

(** ** class CsvDataProcessor *)

Module CsvDataProcessor.

Definition __init__ (datasource : string) : Processor :=
  DataProcessor.__init__ (Csv ";") datasource.

Definition read (io : Readers) : M bool :=
  try_except
    (self <- get_self ;;
     separator <- get_separator ;;
     df <- call (read_csv io (_datasource self) separator) ;;
     set_dataset df ;;
     let col_names := columns df in
     if length col_names <? 2 then ret false else ret true)
    (fun e => print (str e) ;; ret false).

Definition run `{SortKernel} : M unit :=
  self <- get_self ;;
  cleaned_result <- remove_col_by_name (_dataset self) ["dateAdded"] ;;
  let target_values := ["directedBy"; "title"] in
  cleaned_result <- for_each target_values cleaned_result
                      (fun t acc => sort_data_by_col acc t false) ;;
  self <- get_self ;;
  r <- call (pandas.concat [result self; Some cleaned_result]) ;;
  set_result r.

Definition print_result (to_string : DataFrame -> string) : M unit :=
  self <- get_self ;;
  print2 ("Running CSV-file processor!" ++ nl)%string (str_of to_string (result self)).

End CsvDataProcessor.

(** ** class TxtDataProcessor *)

Module TxtDataProcessor.

Definition __init__ (datasource : string) : Processor :=
  DataProcessor.__init__ Txt datasource.

Definition read (io : Readers) : M bool :=
  try_except
    (self <- get_self ;;
     df <- call (read_table io (_datasource self)) ;;
     set_dataset df ;;
     let col_names := columns df in
     if length col_names <? 2 then ret false else ret true)
    (fun e => print (str e) ;; ret false).

Definition run `{SortKernel} : M unit :=
  self <- get_self ;;
  cleaned_result <- remove_col_by_name (_dataset self) ["dateAdded"] ;;
  let target_values := ["directedBy"; "title"] in
  cleaned_result <- for_each target_values cleaned_result
                      (fun t acc => sort_data_by_col acc t false) ;;
  self <- get_self ;;
  r <- call (pandas.concat [result self; Some cleaned_result]) ;;
  set_result r.

Definition print_result (to_string : DataFrame -> string) : M unit :=
  self <- get_self ;;
  print2 ("Running TXT-file processor!" ++ nl)%string (str_of to_string (result self)).

End TxtDataProcessor.

(** ** class JSONDataProcessor *)

Module JSONDataProcessor.

Definition __init__ (datasource : string) : Processor :=
  DataProcessor.__init__ JSON datasource.

Definition read (io : Readers) : M bool :=
  try_except
    (self <- get_self ;;
     df <- call (read_json io (_datasource self)) ;;
     set_dataset df ;;
     let col_names := columns df in
     if length col_names <? 2 then ret false else ret true)
    (fun e => print (str e) ;; ret false).

Definition run `{SortKernel} : M unit :=
  self <- get_self ;;
  cleaned_result <- remove_col_by_name (_dataset self) ["dateAdded"; "avgRating"] ;;
  let target_values := ["directedBy"; "title"] in
  cleaned_result <- for_each target_values cleaned_result
                      (fun t acc => sort_data_by_col acc t true) ;;
  self <- get_self ;;
  r <- call (pandas.concat [result self; Some cleaned_result]) ;;
  set_result r.

Definition print_result (to_string : DataFrame -> string) : M unit :=
  self <- get_self ;;
  print2 ("Running JSON-file processor!" ++ nl)%string (str_of to_string (result self)).

End JSONDataProcessor.

(** ** Calling a method on an instance: dispatch on its class *)

Definition read (io : Readers) : M bool :=
  fun w => match kind (self w) with
           | Csv _ => CsvDataProcessor.read io w
           | Txt => TxtDataProcessor.read io w
           | JSON => JSONDataProcessor.read io w
           end.

Definition run `{SortKernel} : M unit :=
  fun w => match kind (self w) with
           | Csv _ => CsvDataProcessor.run w
           | Txt => TxtDataProcessor.run w
           | JSON => JSONDataProcessor.run w
           end.

Definition print_result (to_string : DataFrame -> string) : M unit :=
  fun w => match kind (self w) with
           | Csv _ => CsvDataProcessor.print_result to_string w
           | Txt => TxtDataProcessor.print_result to_string w
           | JSON => JSONDataProcessor.print_result to_string w
           end.

(** ** What one call of [run] computes

    The three [run] methods differ in two constants: the labels they drop and
    the direction they sort in. *)

Definition dropped (k : Kind) : list string :=
  match k with
  | Csv _ | Txt => ["dateAdded"]
  | JSON => ["dateAdded"; "avgRating"]
  end.

Definition ascending (k : Kind) : bool :=
  match k with
  | Csv _ | Txt => false
  | JSON => true
  end.

(** The frame [run] appends: [RawTable] without the dropped columns, sorted
    by [directedBy] and then by [title]. *)
Definition batch `{SortKernel} (k : Kind) (df : DataFrame) : Outcome DataFrame :=
  match pandas.drop df (dropped k) with
  | Return cleaned =>
      match pandas.sort_values cleaned "directedBy" (ascending k) with
      | Return by_director => pandas.sort_values by_director "title" (ascending k)
      | Raise e => Raise e
      end
  | Raise e => Raise e
  end.

(** The table a class's reader hands to [read]. *)
Definition parse (io : Readers) (p : Processor) : Outcome DataFrame :=
  match kind p with
  | Csv separator => read_csv io (_datasource p) separator
  | Txt => read_table io (_datasource p)
  | JSON => read_json io (_datasource p)
  end.

(** The order [sort_values] leaves a column in: ascending or descending on
    the present values, missing values last either way. *)
Definition precedes (asc : bool) (a b : Cell) : bool :=
  if isna b then true
  else if isna a then false
  else if asc then cell_leb a b else cell_leb b a.

Definition in_order (asc : bool) (ks : list Cell) : Prop :=
  Sorted (fun a b => precedes asc a b = true) ks.

(** What [run] needs of [RawTable]: the labels to drop are there, and
    [directedBy] and [title] each name one column of comparable values. *)
Definition required (k : Kind) (df : DataFrame) : bool :=
  forallb (fun l => mem l (columns df)) (dropped k)
  && forallb (fun t => Nat.eqb (count t (columns df)) 1 && sortable (column t df))
       ["directedBy"; "title"].

Definition rows_of (r : option DataFrame) : list Row :=
  match r with Some df => rows df | None => [] end.

Definition columns_of (r : option DataFrame) : list string :=
  match r with Some df => columns df | None => [] end.

(** A caller's script: calls to [read] and [run] on one instance, each
    exception caught by the caller. *)
Inductive Call :=
| CallRead (io : Readers)
| CallRun.

Definition step `{SortKernel} (w : World) (c : Call) : World :=
  match c with
  | CallRead io => snd (read io w)
  | CallRun => snd (run w)
  end.

Definition script `{SortKernel} (cs : list Call) (w : World) : World :=
  fold_left step cs w.

(** ** Sessions

    What a sequence of calls leaves behind, read off the calls alone. *)


(** What a call prints on an instance [p]: the text of the exception when a
    [read] could not parse, nothing otherwise. *)
Definition printed (p : Processor) (c : Call) : list string :=
  match c with
  | CallRead io =>
      match parse io p with
      | Raise e => [str e]
      | Return _ => []
      end
  | CallRun => []
  end.

(** The table a call leaves in [RawTable], given the one before it. *)
Definition parsed (p : Processor) (d : option DataFrame) (c : Call)
  : option DataFrame :=
  match c with
  | CallRead io =>
      match parse io p with
      | Return df => Some df
      | Raise _ => d
      end
  | CallRun => d
  end.

(** A well-formed frame: every row has one cell per label, and no label
    occurs twice.  The readers of pandas return such frames. *)
Definition tidy (df : DataFrame) : bool :=
  rectangular df && nodupb (columns df).

Definition tidy_opt (r : option DataFrame) : bool :=
  match r with Some df => tidy df | None => true end.

Definition tidy_call (c : Call) : Prop :=
  match c with
  | CallRead io => forall p df, parse io p = Return df -> tidy df = true
  | CallRun => True
  end.

(** The labels [run] looks up in [RawTable]. *)
Definition needed (k : Kind) : list string :=
  dropped k ++ ["directedBy"; "title"].

(** A session in which the caller also looks at the result. *)
Inductive Action :=
| Act (c : Call)
| CallPrintResult (to_string : DataFrame -> string).

Definition perform `{SortKernel} (w : World) (a : Action) : World :=
  match a with
  | Act c => step w c
  | CallPrintResult to_string => snd (print_result to_string w)
  end.

Definition session `{SortKernel} (acts : list Action) (w : World) : World :=
  fold_left perform acts w.

(** The calls of a session without its looks at the result. *)
Fixpoint calls_of (acts : list Action) : list Call :=
  match acts with
  | [] => []
  | Act c :: rest => c :: calls_of rest
  | CallPrintResult _ :: rest => calls_of rest
  end.

(** ** Sample sources *)

Module Sample.

Definition movies : DataFrame :=
  {| columns := ["title"; "directedBy"; "dateAdded"];
     rows := [ [Str "Alien"; Str "Scott"; Int 3];
               [Str "Brazil"; Str "Gilliam"; Int 1];
               [Str "Casino"; Str "Scorsese"; Int 2] ] |}.

Definition rated : DataFrame :=
  {| columns := ["title"; "directedBy"; "dateAdded"; "avgRating"];
     rows := [ [Str "Alien"; Str "Scott"; Int 3; Int 8];
               [Str "Casino"; Str "Scorsese"; Int 2; Int 8];
               [Str "Brazil"; Str "Gilliam"; Int 1; Int 7] ] |}.

(** [movies] without [dateAdded], by descending [title]. *)
Definition sorted_movies : DataFrame :=
  {| columns := ["title"; "directedBy"];
     rows := [ [Str "Casino"; Str "Scorsese"];
               [Str "Brazil"; Str "Gilliam"];
               [Str "Alien"; Str "Scott"] ] |}.

(** A table with a missing [title]. *)
Definition gaps : DataFrame :=
  {| columns := ["title"; "directedBy"; "dateAdded"];
     rows := [ [NaN; Str "Scott"; Int 3];
               [Str "Brazil"; Str "Gilliam"; Int 1];
               [Str "Casino"; Str "Scorsese"; Int 2] ] |}.

(** A table without [title]. *)
Definition untitled : DataFrame :=
  {| columns := ["directedBy"; "dateAdded"];
     rows := [ [Str "Scott"; Int 3]; [Str "Gilliam"; Int 1] ] |}.

(** Two films of one title. *)
Definition remakes : DataFrame :=
  {| columns := ["title"; "directedBy"; "dateAdded"];
     rows := [ [Str "Solaris"; Str "Tarkovsky"; Int 1];
               [Str "Solaris"; Str "Soderbergh"; Int 2] ] |}.


Definition titles_only : DataFrame :=
  {| columns := ["title"]; rows := [[Str "Alien"]; [Str "Brazil"]] |}.

(** A file system where every path holds the same table. *)
Definition holding (df : DataFrame) : Readers :=
  {| read_csv := fun _ _ => Return df;
     read_table := fun _ => Return df;
     read_json := fun _ => Return df |}.

(** A file system with no file at all. *)
Definition empty : Readers :=
  {| read_csv := fun path _ =>
       raise FileNotFoundError "[Errno 2] No such file or directory";
     read_table := fun path =>
       raise FileNotFoundError "[Errno 2] No such file or directory";
     read_json := fun path =>
       raise FileNotFoundError "[Errno 2] No such file or directory" |}.

Definition csv : Processor := CsvDataProcessor.__init__ "movies.csv".
Definition txt : Processor := TxtDataProcessor.__init__ "movies.txt".
Definition json : Processor := JSONDataProcessor.__init__ "movies.json".

End Sample.

(** * Properties *)

(** ** Lists in order *)

Lemma Sorted_app {A} (R : A -> A -> Prop) (l1 l2 : list A) :
  Sorted R l1 -> Sorted R l2 ->
  (forall x y, In x l1 -> In y l2 -> R x y) ->
  Sorted R (l1 ++ l2).
Proof.
  induction l1 as [|a l1 IH]; intros S1 S2 H; simpl; auto.
  apply Sorted_inv in S1 as [S1 Hd].
  constructor.
  - apply IH; auto. intros; apply H; simpl; auto.
  - destruct l1 as [|b l1]; simpl.
    + destruct l2; constructor. apply H; simpl; auto.
    + constructor. now apply HdRel_inv in Hd.
Qed.

Lemma Sorted_snoc {A} (R : A -> A -> Prop) (l : list A) (x : A) :
  Sorted R l -> (forall y, l <> [] -> last l x = y -> R y x) -> Sorted R (l ++ [x]).
Proof.
  induction l as [|a l IH]; intros S H; simpl.
  - repeat constructor.
  - apply Sorted_inv in S as [S Hd]. constructor.
    + apply IH; auto. intros y Hne Hy. apply H; [discriminate|].
      destruct l; [contradiction|exact Hy].
    + destruct l as [|b l]; simpl.
      * constructor. apply H; [discriminate|reflexivity].
      * constructor. now apply HdRel_inv in Hd.
Qed.

Lemma Sorted_rev {A} (R : A -> A -> Prop) (l : list A) :
  Sorted R l -> Sorted (fun x y => R y x) (rev l).
Proof.
  induction 1 as [|a l S IH Hd]; simpl; [constructor|].
  apply Sorted_snoc; auto.
  intros y Hne Hy. destruct l as [|b l]; [simpl in Hne; contradiction|].
  apply HdRel_inv in Hd. simpl in Hy.
  rewrite last_last in Hy. now subst.
Qed.

Lemma Sorted_map {A B} (R : A -> A -> Prop) (f : B -> A) (l : list B) :
  Sorted (fun x y => R (f x) (f y)) l -> Sorted R (map f l).
Proof.
  induction 1 as [|a l S IH Hd]; simpl; constructor; auto.
  destruct Hd; simpl; constructor; auto.
Qed.

Lemma Sorted_weaken {A} (R R' : A -> A -> Prop) (l : list A) :
  Sorted R l ->
  (forall x y, In x l -> In y l -> R x y -> R' x y) ->
  Sorted R' l.
Proof.
  induction 1 as [|a l S IH Hd]; intros H; constructor.
  - apply IH. intros; apply H; simpl; auto.
  - destruct Hd; constructor. apply H; simpl; auto.
Qed.

Lemma Sorted_all {A} (R : A -> A -> Prop) (l : list A) :
  (forall x y, In x l -> In y l -> R x y) -> Sorted R l.
Proof.
  induction l as [|a l IH]; intros H; constructor.
  - apply IH. intros; apply H; simpl; auto.
  - destruct l; constructor. apply H; simpl; auto.
Qed.

Lemma filter_split_perm {A} (p : A -> bool) (l : list A) :
  Permutation (filter (fun x => negb (p x)) l ++ filter p l) l.
Proof.
  induction l as [|a l IH]; simpl; auto.
  destruct (p a); simpl.
  - apply Permutation_sym, Permutation_cons_app, Permutation_sym, IH.
  - now constructor.
Qed.

Lemma forallb_perm {A} (f : A -> bool) (l l' : list A) :
  Permutation l l' -> forallb f l = forallb f l'.
Proof.
  induction 1; simpl; try congruence.
  now rewrite !andb_assoc, (andb_comm (f y)).
Qed.

Lemma forallb_filter {A} (f p : A -> bool) (l : list A) :
  forallb f (filter p l) = forallb (fun x => implb (p x) (f x)) l.
Proof.
  induction l as [|a l IH]; simpl; auto.
  destruct (p a); simpl; now rewrite IH.
Qed.

(** ** The order on cells *)

Lemma cell_leb_total (a b : Cell) :
  (is_int a && is_int b) || (is_str a && is_str b) = true ->
  cell_leb a b = true \/ cell_leb b a = true.
Proof.
  destruct a, b; simpl; try discriminate; intros _.
  - destruct (Z.leb_spec z z0); [now left|right; apply Z.leb_le; lia].
  - apply String.leb_total.
Qed.

Lemma comparable_total (ks : list Cell) (a b : Cell) :
  comparable ks = true -> In a ks -> In b ks ->
  cell_leb a b = true \/ cell_leb b a = true.
Proof.
  unfold comparable. intros H Ha Hb. apply cell_leb_total.
  apply orb_true_iff in H as [H|H]; rewrite forallb_forall in H;
    rewrite (H a Ha), (H b Hb); simpl; auto using orb_true_r.
Qed.

Lemma comparable_perm (ks ks' : list Cell) :
  Permutation ks ks' -> comparable ks = comparable ks'.
Proof.
  intros H. unfold comparable.
  now rewrite (forallb_perm is_int _ _ H), (forallb_perm is_str _ _ H).
Qed.

Lemma sortable_perm (ks ks' : list Cell) :
  Permutation ks ks' -> sortable ks = sortable ks'.
Proof.
  intros H. unfold sortable, comparable. rewrite !forallb_filter.
  now rewrite (forallb_perm _ _ _ H), (forallb_perm (fun x => implb _ (is_str x)) _ _ H).
Qed.

(** ** The reference kernel is a kernel *)

Lemma Stable_insert_perm {A} (x : Cell * A) (l : list (Cell * A)) :
  Permutation (Stable.insert x l) (x :: l).
Proof.
  induction l as [|y l IH]; simpl; auto.
  destruct (cell_leb (fst x) (fst y)); auto.
  rewrite IH. apply perm_swap.
Qed.

Lemma Stable_sort_perm {A} (l : list (Cell * A)) : Permutation (Stable.sort l) l.
Proof.
  induction l as [|x l IH]; simpl; auto.
  rewrite Stable_insert_perm. now constructor.
Qed.

Lemma Stable_insert_sorted {A} (x : Cell * A) (l : list (Cell * A)) :
  (forall y, In y l -> key_le x y \/ key_le y x) ->
  Sorted key_le l -> Sorted key_le (Stable.insert x l).
Proof.
  induction l as [|y l IH]; intros T S; simpl.
  - repeat constructor.
  - destruct (cell_leb (fst x) (fst y)) eqn:E.
    + constructor; auto.
    + apply Sorted_inv in S as [S Hd].
      assert (Hyx : key_le y x).
      { destruct (T y) as [H|H]; simpl; auto. unfold key_le in H. congruence. }
      constructor.
      * apply IH; auto. intros; apply T; simpl; auto.
      * destruct l as [|z l]; simpl; [now constructor|].
        destruct (cell_leb (fst x) (fst z)); constructor; auto.
        now apply HdRel_inv in Hd.
Qed.

Lemma Stable_sort_sorted {A} (l : list (Cell * A)) :
  comparable (map fst l) = true -> Sorted key_le (Stable.sort l).
Proof.
  intros C.
  assert (T : forall x y, In x l -> In y l -> key_le x y \/ key_le y x).
  { intros x y Hx Hy. apply (comparable_total (map fst l)); auto using in_map. }
  clear C. induction l as [|x l IH]; simpl; [constructor|].
  apply Stable_insert_sorted.
  - intros y Hy. apply T; simpl; auto.
    right. eapply Permutation_in; [apply Stable_sort_perm|exact Hy].
  - apply IH. intros; apply T; simpl; auto.
Qed.

Definition stable_kernel : SortKernel :=
  {| argsort := @Stable.sort;
     argsort_perm := @Stable_sort_perm;
     argsort_sorted := @Stable_sort_sorted |}.

(** ** [drop] *)

Section Masks.
Variable labels : list string.
Let keep (c : string) : bool := negb (mem c labels).

Lemma mem_select (c : string) (cs : list string) :
  mem c (select (map keep cs) cs) = mem c cs && negb (mem c labels).
Proof.
  induction cs as [|x cs IH]; simpl; auto.
  unfold keep at 1. destruct (mem x labels) eqn:Hx; simpl.
  - rewrite IH. destruct (String.eqb_spec c x); simpl; auto.
    subst. rewrite Hx. simpl. now rewrite andb_false_r.
  - rewrite IH. destruct (String.eqb_spec c x); simpl; auto.
    subst. now rewrite Hx.
Qed.

Lemma count_select (c : string) (cs : list string) :
  mem c labels = false -> count c (select (map keep cs) cs) = count c cs.
Proof.
  intros Hc. induction cs as [|x cs IH]; simpl; auto.
  unfold keep at 1. destruct (mem x labels) eqn:Hx; simpl.
  - destruct (String.eqb_spec c x); auto. congruence.
  - now rewrite IH.
Qed.

Lemma cell_of_select (c : string) (cs : list string) (r : Row) :
  mem c labels = false ->
  cell_of c (select (map keep cs) cs) (select (map keep cs) r) = cell_of c cs r.
Proof.
  intros Hc. revert r. induction cs as [|x cs IH]; intros r; simpl; auto.
  destruct r as [|v r]; simpl.
  - destruct (keep x); simpl; [|destruct (select _ _)]; reflexivity.
  - destruct (keep x) eqn:Hx; simpl.
    + destruct (String.eqb c x); auto.
    + destruct (String.eqb_spec c x); auto.
      subst. unfold keep in Hx. rewrite Hc in Hx. discriminate.
Qed.

Lemma length_select {A B} (m : list bool) (l : list A) (l' : list B) :
  length l = length l' -> length (select m l) = length (select m l').
Proof.
  revert l l'. induction m as [|b m IH]; intros [|x l] [|y l']; simpl; try easy.
  intros H. destruct b; simpl; auto.
Qed.

End Masks.

Lemma drop_returns (df : DataFrame) (labels : list string) :
  forallb (fun l => mem l (columns df)) labels = true ->
  pandas.drop df labels =
    Return {| columns := select (map (fun c => negb (mem c labels)) (columns df)) (columns df);
              rows := map (select (map (fun c => negb (mem c labels)) (columns df))) (rows df) |}.
Proof.
  intros H. unfold pandas.drop.
  replace (filter _ labels) with (@nil string); auto.
  induction labels as [|l ls IH]; simpl in *; auto.
  apply andb_true_iff in H as [-> H]. simpl. auto.
Qed.

Lemma drop_raises (df : DataFrame) (labels : list string) :
  forallb (fun l => mem l (columns df)) labels = false ->
  exists msg, pandas.drop df labels = raise KeyError msg.
Proof.
  intros H. unfold pandas.drop.
  destruct (filter _ labels) eqn:E; [|eauto].
  exfalso. induction labels as [|l ls IH]; simpl in *; [discriminate|].
  destruct (mem l (columns df)); simpl in *; [auto|discriminate].
Qed.

Lemma drop_inv (df c : DataFrame) (labels : list string) :
  pandas.drop df labels = Return c ->
  forallb (fun l => mem l (columns df)) labels = true /\
  c = {| columns := select (map (fun c => negb (mem c labels)) (columns df)) (columns df);
         rows := map (select (map (fun c => negb (mem c labels)) (columns df))) (rows df) |}.
Proof.
  intros H.
  destruct (forallb (fun l => mem l (columns df)) labels) eqn:E.
  - rewrite (drop_returns _ _ E) in H. now inversion H.
  - destruct (drop_raises _ _ E) as [msg Hm]. rewrite Hm in H. discriminate.
Qed.

Lemma drop_column (df c : DataFrame) (labels : list string) (t : string) :
  pandas.drop df labels = Return c -> mem t labels = false ->
  count t (columns c) = count t (columns df) /\ column t c = column t df.
Proof.
  intros H Ht. apply drop_inv in H as [_ ->]. simpl. split.
  - now apply count_select.
  - unfold column. simpl. rewrite map_map. apply map_ext.
    intros r. now apply cell_of_select.
Qed.

Lemma drop_absent (df c : DataFrame) (labels : list string) (l : string) :
  pandas.drop df labels = Return c -> mem l labels = true ->
  mem l (columns c) = false.
Proof.
  intros H Hl. apply drop_inv in H as [_ ->]. simpl.
  rewrite mem_select, Hl. apply andb_false_r.
Qed.

Lemma drop_nrows (df c : DataFrame) (labels : list string) :
  pandas.drop df labels = Return c -> nrows c = nrows df.
Proof.
  intros H. apply drop_inv in H as [_ ->]. unfold nrows. simpl. apply length_map.
Qed.

Lemma drop_rectangular (df c : DataFrame) (labels : list string) :
  pandas.drop df labels = Return c -> rectangular df = true -> rectangular c = true.
Proof.
  intros H R. apply drop_inv in H as [_ ->]. unfold rectangular in *. simpl.
  rewrite forallb_forall in *. intros r Hr.
  apply in_map_iff in Hr as (r0 & <- & Hr0).
  apply Nat.eqb_eq. apply length_select. apply Nat.eqb_eq. auto.
Qed.

(** ** [sort_values] *)

Section Sorting.
Context {K : SortKernel}.

Lemma nargsort_perm {A} (items : list (Cell * A)) (asc : bool) :
  Permutation (pandas.nargsort items asc) items.
Proof.
  unfold pandas.nargsort.
  eapply Permutation_trans; [|apply (filter_split_perm (fun x => isna (fst x)) items)].
  apply Permutation_app_tail.
  destruct asc.
  - apply argsort_perm.
  - rewrite <- Permutation_rev, argsort_perm. apply Permutation_sym, Permutation_rev.
Qed.

Lemma nargsort_sorted {A} (items : list (Cell * A)) (asc : bool) :
  sortable (map fst items) = true ->
  Sorted (fun x y => precedes asc (fst x) (fst y) = true) (pandas.nargsort items asc).
Proof.
  intros Hs. unfold pandas.nargsort.
  set (nn := filter (fun x => negb (isna (fst x))) items).
  assert (Hc : comparable (map fst nn) = true).
  { unfold sortable in Hs. subst nn.
    replace (map fst (filter (fun x => negb (isna (fst x))) items))
      with (filter (fun c => negb (isna c)) (map fst items)); auto.
    clear. induction items as [|x l IH]; simpl; auto.
    destruct (isna (fst x)); simpl; now rewrite IH. }
  assert (Hnn : forall x, In x nn -> isna (fst x) = false).
  { intros x Hx. apply filter_In in Hx as [_ Hx]. now apply negb_true_iff. }
  apply Sorted_app.
  - destruct asc.
    + apply Sorted_weaken with (R := key_le); [now apply argsort_sorted|].
      intros x y Hx Hy H. unfold precedes, key_le in *.
      rewrite (Hnn x), (Hnn y); auto;
        eapply Permutation_in; eauto using argsort_perm.
    + apply Sorted_weaken with (R := fun x y => key_le y x).
      * apply Sorted_rev, argsort_sorted.
        rewrite <- Hc. apply comparable_perm, Permutation_map, Permutation_sym, Permutation_rev.
      * intros x y Hx Hy H. unfold precedes, key_le in *.
        assert (P : Permutation (rev (argsort (rev nn))) nn).
        { rewrite <- Permutation_rev, argsort_perm. apply Permutation_sym, Permutation_rev. }
        rewrite (Hnn x), (Hnn y); auto; eapply Permutation_in; eauto.
  - apply Sorted_all. intros x y _ Hy. apply filter_In in Hy as [_ Hy].
    unfold precedes. now rewrite Hy.
  - intros x y _ Hy. apply filter_In in Hy as [_ Hy].
    unfold precedes. now rewrite Hy.
Qed.

Lemma map_snd_combine_column (f : Row -> Cell) (rs : list Row) :
  map snd (combine (map f rs) rs) = rs.
Proof. induction rs; simpl; congruence. Qed.

Lemma map_fst_combine_column (f : Row -> Cell) (rs : list Row) :
  map fst (combine (map f rs) rs) = map f rs.
Proof. induction rs; simpl; congruence. Qed.

Lemma combine_column_keys (f : Row -> Cell) (rs : list Row) :
  Forall (fun x => fst x = f (snd x)) (combine (map f rs) rs).
Proof. induction rs; simpl; constructor; auto. Qed.

Lemma keyed_map_fst {A} (f : A -> Cell) (l : list (Cell * A)) :
  Forall (fun x => fst x = f (snd x)) l -> map f (map snd l) = map fst l.
Proof. induction 1; simpl; congruence. Qed.

Lemma sort_values_inv (df b : DataFrame) (c : string) (asc : bool) :
  pandas.sort_values df c asc = Return b ->
  count c (columns df) = 1 /\ sortable (column c df) = true /\
  b = {| columns := columns df;
         rows := map snd (pandas.nargsort (combine (column c df) (rows df)) asc) |}.
Proof.
  unfold pandas.sort_values.
  destruct (count c (columns df)) as [|[|n]]; try discriminate.
  destruct (sortable (column c df)); try discriminate.
  intros H. now inversion H.
Qed.

Lemma sort_values_returns (df : DataFrame) (c : string) (asc : bool) :
  count c (columns df) = 1 -> sortable (column c df) = true ->
  exists b, pandas.sort_values df c asc = Return b.
Proof.
  intros H1 H2. unfold pandas.sort_values. rewrite H1, H2. eauto.
Qed.

Lemma sort_values_columns (df b : DataFrame) (c : string) (asc : bool) :
  pandas.sort_values df c asc = Return b -> columns b = columns df.
Proof. intros H. now apply sort_values_inv in H as (_ & _ & ->). Qed.

Lemma sort_values_perm (df b : DataFrame) (c : string) (asc : bool) :
  pandas.sort_values df c asc = Return b -> Permutation (rows b) (rows df).
Proof.
  intros H. apply sort_values_inv in H as (_ & _ & ->). simpl.
  rewrite <- (map_snd_combine_column (cell_of c (columns df)) (rows df)) at 2.
  apply Permutation_map, nargsort_perm.
Qed.

Lemma sort_values_in_order (df b : DataFrame) (c : string) (asc : bool) :
  pandas.sort_values df c asc = Return b -> in_order asc (column c b).
Proof.
  intros H. apply sort_values_inv in H as (_ & Hs & ->).
  unfold in_order, column. simpl.
  rewrite keyed_map_fst.
  - apply Sorted_map, nargsort_sorted.
    unfold column. rewrite map_fst_combine_column. exact Hs.
  - eapply Permutation_Forall; [apply Permutation_sym, nargsort_perm|].
    apply combine_column_keys.
Qed.

End Sorting.

(** ** [run], one call *)

Section Run.
Context {K : SortKernel}.

(** [run] reads [self._dataset], computes the batch, and assigns
    [self.result] last: when anything raises, nothing has changed. *)
Lemma run_unfold (w : World) :
  run w =
  match _dataset (self w) with
  | None => (raise AttributeError "'NoneType' object has no attribute 'drop'", w)
  | Some df =>
      match batch (kind (self w)) df with
      | Raise e => (Raise e, w)
      | Return b =>
          match pandas.concat [result (self w); Some b] with
          | Raise e => (Raise e, w)
          | Return r =>
              (Return tt, {| self := with_result (self w) r; stdout := stdout w |})
          end
      end
  end.
Proof.
  destruct w as [[k ds d r] out]. unfold run, batch. simpl.
  destruct k; simpl; destruct d as [df|]; simpl; auto;
    unfold CsvDataProcessor.run, TxtDataProcessor.run, JSONDataProcessor.run,
      remove_col_by_name, sort_data_by_col; simpl;
    unfold bind, get_self, call, ret, set_result; simpl;
    repeat match goal with
      | |- context [match ?x with Return _ => _ | Raise _ => _ end] =>
          destruct x; simpl
      end; reflexivity.
Qed.

Corollary run_keeps_self (w : World) :
  let w' := snd (run w) in
  kind (self w') = kind (self w) /\
  _datasource (self w') = _datasource (self w) /\
  _dataset (self w') = _dataset (self w) /\
  stdout w' = stdout w.
Proof.
  cbv zeta. rewrite run_unfold.
  destruct (_dataset (self w)) eqn:E; simpl; auto.
  destruct (batch _ _); simpl; auto.
  destruct (pandas.concat _); simpl; auto.
Qed.


Lemma run_returns_inv (w w' : World) (u : unit) :
  run w = (Return u, w') ->
  exists df b r,
    _dataset (self w) = Some df /\
    batch (kind (self w)) df = Return b /\
    pandas.concat [result (self w); Some b] = Return r /\
    w' = {| self := with_result (self w) r; stdout := stdout w |}.
Proof.
  rewrite run_unfold.
  destruct (_dataset (self w)) as [df|]; simpl; [|discriminate].
  destruct (batch _ _) as [b|] eqn:Eb; simpl; [|discriminate].
  destruct (pandas.concat _) as [r|] eqn:Ec; simpl; [|discriminate].
  intros H. inversion H. eauto 8.
Qed.

(** *** The batch *)

Lemma batch_inv (k : Kind) (df b : DataFrame) :
  batch k df = Return b ->
  exists cleaned by_director,
    pandas.drop df (dropped k) = Return cleaned /\
    pandas.sort_values cleaned "directedBy" (ascending k) = Return by_director /\
    pandas.sort_values by_director "title" (ascending k) = Return b.
Proof.
  unfold batch.
  destruct (pandas.drop _ _) as [c|]; [|discriminate].
  destruct (pandas.sort_values c _ _) as [m|] eqn:E; [|discriminate].
  eauto.
Qed.

Lemma dropped_not_sorted (k : Kind) (t : string) :
  In t ["directedBy"; "title"] -> mem t (dropped k) = false.
Proof. intros [<-|[<-|[]]]; destruct k; reflexivity. Qed.

Lemma column_perm (t : string) (a b : DataFrame) :
  columns a = columns b -> Permutation (rows a) (rows b) ->
  Permutation (column t a) (column t b).
Proof. intros E P. unfold column. rewrite E. now apply Permutation_map. Qed.

(** With the required columns in place the batch is computed: nothing in
    the pipeline raises. *)
Lemma batch_returns (k : Kind) (df : DataFrame) :
  required k df = true ->
  exists cleaned by_director b,
    pandas.drop df (dropped k) = Return cleaned /\
    pandas.sort_values cleaned "directedBy" (ascending k) = Return by_director /\
    pandas.sort_values by_director "title" (ascending k) = Return b /\
    batch k df = Return b.
Proof.
  unfold required. intros H.
  apply andb_true_iff in H as [Hd Hs]. simpl in Hs.
  rewrite andb_true_r in Hs.
  apply andb_true_iff in Hs as [Hdir Htit].
  apply andb_true_iff in Hdir as [Cdir Sdir], Htit as [Ctit Stit].
  apply Nat.eqb_eq in Cdir, Ctit.
  pose proof (drop_returns _ _ Hd) as Ed.
  set (cleaned := {| columns := _; rows := _ |}) in Ed.
  destruct (drop_column _ _ _ "directedBy" Ed) as [Cd Vd];
    [apply dropped_not_sorted; simpl; auto|].
  destruct (drop_column _ _ _ "title" Ed) as [Ct Vt];
    [apply dropped_not_sorted; simpl; auto|].
  destruct (sort_values_returns cleaned "directedBy" (ascending k)) as [m Em];
    [congruence|congruence|].
  pose proof (sort_values_columns _ _ _ _ Em) as Cm.
  pose proof (sort_values_perm _ _ _ _ Em) as Pm.
  destruct (sort_values_returns m "title" (ascending k)) as [b Eb].
  - congruence.
  - rewrite (sortable_perm _ _ (column_perm "title" _ _ Cm Pm)). congruence.
  - exists cleaned, m, b. unfold batch. rewrite Ed, Em. auto.
Qed.

Lemma batch_columns (k : Kind) (df b : DataFrame) :
  batch k df = Return b ->
  columns b = select (map (fun c => negb (mem c (dropped k))) (columns df)) (columns df).
Proof.
  intros H. apply batch_inv in H as (c & m & Ec & Em & Eb).
  rewrite (sort_values_columns _ _ _ _ Eb), (sort_values_columns _ _ _ _ Em).
  now apply drop_inv in Ec as [_ ->].
Qed.

Lemma batch_perm (k : Kind) (df b : DataFrame) :
  batch k df = Return b ->
  Permutation (rows b)
    (map (select (map (fun c => negb (mem c (dropped k))) (columns df))) (rows df)).
Proof.
  intros H. apply batch_inv in H as (c & m & Ec & Em & Eb).
  rewrite (sort_values_perm _ _ _ _ Eb), (sort_values_perm _ _ _ _ Em).
  now apply drop_inv in Ec as [_ ->].
Qed.


Lemma batch_absent (k : Kind) (df b : DataFrame) (l : string) :
  batch k df = Return b -> mem l (dropped k) = true -> mem l (columns b) = false.
Proof.
  intros H Hl. rewrite (batch_columns _ _ _ H), mem_select, Hl. apply andb_false_r.
Qed.

Lemma batch_in_order (k : Kind) (df b : DataFrame) :
  batch k df = Return b -> in_order (ascending k) (column "title" b).
Proof.
  intros H. apply batch_inv in H as (c & m & _ & _ & Eb).
  eapply sort_values_in_order; eauto.
Qed.

End Run.

(** ** [concat] *)

Lemma labels_eqb_eq (a b : list string) : labels_eqb a b = true <-> a = b.
Proof. unfold labels_eqb. destruct (list_eq_dec string_dec a b); split; easy. Qed.

Lemma mem_app (c : string) (a b : list string) : mem c (a ++ b) = mem c a || mem c b.
Proof. apply existsb_app. Qed.

Lemma mem_filter (c : string) (p : string -> bool) (cs : list string) :
  mem c (filter p cs) = mem c cs && p c.
Proof.
  induction cs as [|x cs IH]; simpl; auto.
  destruct (p x) eqn:Px; simpl; rewrite IH;
    destruct (String.eqb_spec c x); subst; simpl; auto;
    now rewrite Px, ?andb_false_r.
Qed.

Lemma mem_union (c : string) (u cs : list string) :
  mem c (pandas.union u cs) = mem c u || mem c cs.
Proof.
  unfold pandas.union. rewrite mem_app, mem_filter.
  destruct (mem c u), (mem c cs); reflexivity.
Qed.

Lemma mem_In (c : string) (cs : list string) : mem c cs = true <-> In c cs.
Proof.
  unfold mem. rewrite existsb_exists. split.
  - intros (x & Hx & E). apply String.eqb_eq in E. now subst.
  - intros H. exists c. split; auto. apply String.eqb_refl.
Qed.

Lemma union_absorb (u cs : list string) :
  forallb (fun c => mem c u) cs = true -> pandas.union u cs = u.
Proof.
  intros H. unfold pandas.union.
  replace (filter _ cs) with (@nil string); [apply app_nil_r|].
  induction cs as [|c cs IH]; simpl in *; auto.
  apply andb_true_iff in H as [-> H]. simpl. auto.
Qed.

Lemma nodupb_NoDup (cs : list string) : nodupb cs = true <-> NoDup cs.
Proof.
  induction cs as [|c cs IH]; simpl.
  - split; auto. constructor.
  - rewrite andb_true_iff, negb_true_iff, IH. split.
    + intros [H1 H2]. constructor; auto. rewrite <- mem_In. congruence.
    + intros H. inversion H; subst. split; auto.
      destruct (mem c cs) eqn:E; auto. apply mem_In in E. contradiction.
Qed.

Lemma nodupb_union (u cs : list string) :
  nodupb u = true -> nodupb cs = true -> nodupb (pandas.union u cs) = true.
Proof.
  rewrite !nodupb_NoDup. intros Hu Hc. unfold pandas.union.
  apply NoDup_app; auto using NoDup_filter.
  intros a Ha Hf. apply filter_In in Hf as [_ Hf].
  apply mem_In in Ha. rewrite Ha in Hf. discriminate.
Qed.

(** A label the target has finds its own cell again. *)
Lemma cell_of_map (t : string) (u : list string) (f : string -> Cell) :
  mem t u = true -> cell_of t u (map f u) = f t.
Proof.
  induction u as [|x u IH]; simpl; [discriminate|].
  destruct (String.eqb_spec t x); simpl; [now subst|auto].
Qed.

Lemma cell_of_reindex (t : string) (u cs : list string) (r : Row) :
  mem t u = true -> cell_of t u (pandas.reindex u cs r) = cell_of t cs r.
Proof. intros H. unfold pandas.reindex. now rewrite cell_of_map. Qed.

Lemma length_reindex (u cs : list string) (r : Row) :
  length (pandas.reindex u cs r) = length u.
Proof. apply length_map. Qed.

(** On its own labels, unique and as many as the row has cells, [reindex]
    changes nothing. *)
Lemma reindex_id (cs : list string) (r : Row) :
  nodupb cs = true -> length r = length cs -> pandas.reindex cs cs r = r.
Proof.
  unfold pandas.reindex. revert r.
  induction cs as [|x cs IH]; intros [|v r] N L; simpl in *; try discriminate; auto.
  apply andb_true_iff in N as [Hx N]. apply negb_true_iff in Hx.
  rewrite String.eqb_refl. f_equal.
  transitivity (map (fun c => cell_of c cs r) cs); [|apply IH; auto; lia].
  apply map_ext_in. intros c Hc.
  destruct (String.eqb_spec c x); auto.
  subst. apply mem_In in Hc. congruence.
Qed.

Lemma concat_first (b : DataFrame) : pandas.concat [None; Some b] = Return b.
Proof. destruct b. unfold pandas.concat. simpl. now rewrite app_nil_r. Qed.

Lemma concat_two (r b : DataFrame) :
  pandas.concat [Some r; Some b] =
  if labels_eqb (columns b) (columns r) then
    Return {| columns := columns r; rows := rows r ++ rows b |}
  else if nodupb (columns r) && nodupb (columns b) then
    let u := pandas.union (columns r) (columns b) in
    Return {| columns := u;
              rows := map (pandas.reindex u (columns r)) (rows r)
                      ++ map (pandas.reindex u (columns b)) (rows b) |}
  else raise InvalidIndexError "Reindexing only valid with uniquely valued Index objects".
Proof.
  unfold pandas.concat. simpl. rewrite !andb_true_r, !app_nil_r.
  reflexivity.
Qed.

(** Whatever [concat] returns keeps the rows it was given, in order, and
    stacks the new frame's rows under them; a column of the new frame reads
    the same in the stacked rows. *)
Lemma concat_appends (res : option DataFrame) (b x : DataFrame) :
  pandas.concat [res; Some b] = Return x ->
  exists old new,
    rows x = old ++ new /\
    length old = length (rows_of res) /\
    length new = nrows b /\
    (forall t, mem t (columns b) = true ->
               map (cell_of t (columns x)) new = column t b) /\
    (forall l, mem l (columns x) = true ->
               mem l (columns_of res) = true \/ mem l (columns b) = true).
Proof.
  destruct res as [r|].
  - rewrite concat_two.
    destruct (labels_eqb (columns b) (columns r)) eqn:E.
    + apply labels_eqb_eq in E. intros H. inversion H. simpl.
      exists (rows r), (rows b). unfold column. rewrite E. repeat split; auto.
    + destruct (nodupb (columns r) && nodupb (columns b)); [|discriminate].
      intros H. inversion H. simpl.
      eexists _, _. split; [reflexivity|].
      rewrite !length_map. repeat split; auto.
      * intros t Ht. unfold column. rewrite map_map. apply map_ext.
        intros row. apply cell_of_reindex. rewrite mem_union, Ht. apply orb_true_r.
      * intros l Hl. rewrite mem_union in Hl. now apply orb_true_iff in Hl.
  - rewrite concat_first. intros H. inversion H. subst.
    exists [], (rows x). simpl. repeat split; auto.
Qed.

(** ** [read] *)

(** The three [read] methods in one equation: a parse that raises is
    printed and leaves [self] alone; a parsed table is stored before its
    columns are counted. *)
Lemma read_unfold (io : Readers) (p : Processor) (out : list string) :
  read io {| self := p; stdout := out |} =
  match parse io p with
  | Return df =>
      (Return (negb (length (columns df) <? 2)),
       {| self := with_dataset p df; stdout := out |})
  | Raise e => (Return false, {| self := p; stdout := out ++ [str e] |})
  end.
Proof.
  destruct p as [k ds d r]. unfold read, parse. simpl.
  destruct k; simpl;
    unfold CsvDataProcessor.read, TxtDataProcessor.read, JSONDataProcessor.read,
      try_except, bind, get_self, get_separator, call, set_dataset, print, ret;
    simpl;
    match goal with
    | |- context [match ?x with Return _ => _ | Raise _ => _ end] => destruct x; simpl
    end; auto;
    destruct (length (columns a) <? 2); reflexivity.
Qed.

Lemma read_keeps_result (io : Readers) (w : World) :
  kind (self (snd (read io w))) = kind (self w) /\
  _datasource (self (snd (read io w))) = _datasource (self w) /\
  result (self (snd (read io w))) = result (self w).
Proof.
  destruct w as [p out]. rewrite read_unfold.
  destruct (parse io p); simpl; auto.
Qed.

Lemma read_ok (io : Readers) (p : Processor) (out : list string) (df : DataFrame) :
  parse io p = Return df ->
  2 <= length (columns df) ->
  read io {| self := p; stdout := out |}
  = (Return true, {| self := with_dataset p df; stdout := out |}).
Proof.
  intros E L. rewrite read_unfold, E.
  replace (length (columns df) <? 2) with false; auto.
  symmetry. apply Nat.ltb_ge. exact L.
Qed.

(** C6.  For each of the three formats, when the reader returns a table with
    at least two columns, [read] returns [True], [RawTable] is exactly that
    table, and nothing else changes: [ResultTable] and the console are as
    they were. *)
Theorem read_well_formed (io : Readers) (p : Processor) (out : list string)
    (df : DataFrame) :
  parse io p = Return df ->
  2 <= length (columns df) ->
  read io {| self := p; stdout := out |}
  = (Return true, {| self := with_dataset p df; stdout := out |}).
Proof. apply read_ok. Qed.

(** C9.  [read] is not atomic when it fails.  With a parsed table of fewer
    than two columns it returns [False] after [RawTable] has been
    overwritten with that table; with a parse that raises it returns
    [False] and [RawTable] is what it was before the call. *)
Theorem read_failure_not_atomic (io : Readers) (p : Processor) (out : list string) :
  (forall df, parse io p = Return df -> length (columns df) < 2 ->
     read io {| self := p; stdout := out |}
     = (Return false, {| self := with_dataset p df; stdout := out |}))
  /\
  (forall e, parse io p = Raise e ->
     read io {| self := p; stdout := out |}
     = (Return false, {| self := p; stdout := out ++ [str e] |})).
Proof.
  split.
  - intros df E L. rewrite read_unfold, E.
    apply Nat.ltb_lt in L. now rewrite L.
  - intros e E. now rewrite read_unfold, E.
Qed.

(** ** [run] where [read] has not succeeded *)

Section RunFails.
Context {K : SortKernel}.

(** C8.  While [RawTable] is still the initial [None], [run] raises
    [AttributeError] to its caller and changes nothing. *)
Theorem run_before_read (p : Processor) (out : list string) :
  _dataset p = None ->
  run {| self := p; stdout := out |}
  = (raise AttributeError "'NoneType' object has no attribute 'drop'",
     {| self := p; stdout := out |}).
Proof. intros H. rewrite run_unfold. simpl. now rewrite H. Qed.

Lemma count_absent (t : string) (cs : list string) :
  mem t cs = false -> count t cs = 0.
Proof.
  induction cs as [|x cs IH]; simpl; auto.
  destruct (String.eqb t x); simpl; [discriminate|auto].
Qed.


Lemma dropped_dateAdded (k : Kind) (cs : list string) :
  forallb (fun l => mem l cs) (dropped k) = true -> mem "dateAdded" cs = true.
Proof.
  destruct k; cbn [dropped forallb]; intros H;
    apply andb_true_iff in H; tauto.
Qed.

Lemma one_column (a b : string) (cs : list string) :
  length cs < 2 -> a <> b -> mem a cs = true -> mem b cs = false.
Proof.
  destruct cs as [|c [|c' cs]]; cbn [length]; try lia; intros _ N.
  - discriminate.
  - unfold mem. cbn [existsb]. rewrite !orb_false_r.
    intros Ha. apply String.eqb_eq in Ha. subst c.
    apply String.eqb_neq. congruence.
Qed.

Lemma batch_under_shaped (k : Kind) (df : DataFrame) :
  length (columns df) < 2 ->
  exists msg, batch k df = raise KeyError msg.
Proof.
  intros L. unfold batch.
  destruct (forallb (fun l => mem l (columns df)) (dropped k)) eqn:E.
  - rewrite (drop_returns _ _ E).
    assert (Hd : mem "directedBy" (columns df) = false).
    { apply (one_column "dateAdded"); auto; [discriminate|].
      eapply dropped_dateAdded; eauto. }
    unfold pandas.sort_values at 1. cbn [columns].
    rewrite count_absent; [eexists; reflexivity|].
    rewrite mem_select, Hd. reflexivity.
  - destruct (drop_raises _ _ E) as [msg ->]. exists msg. reflexivity.
Qed.

(** A table of fewer than two columns cannot be run: a label is missing. *)
Lemma run_under_shaped (w : World) (df : DataFrame) :
  _dataset (self w) = Some df ->
  length (columns df) < 2 ->
  exists msg, run w = (raise KeyError msg, w).
Proof.
  intros E L. rewrite run_unfold, E.
  destruct (batch_under_shaped (kind (self w)) df L) as [msg ->].
  exists msg. reflexivity.
Qed.

(** More generally, a [run] that no successful [read] has preceded raises:
    after any number of calls to [read] that all returned [False] on a new
    instance, [RawTable] is either still [None] or a table of fewer than two
    columns. *)
Lemma run_without_successful_read (k : Kind) (datasource : string)
    (out : list string) (ios : list Readers) :
  let p := DataProcessor.__init__ k datasource in
  let w := fold_left (fun w io => snd (read io w)) ios {| self := p; stdout := out |} in
  Forall (fun io => match parse io p with
                    | Return df => length (columns df) < 2
                    | Raise _ => True
                    end) ios ->
  exists e, run w = (Raise e, w).
Proof.
  intros p w H. subst w.
  assert (G : forall w0,
    kind (self w0) = k -> _datasource (self w0) = datasource ->
    (_dataset (self w0) = None \/
     exists df, _dataset (self w0) = Some df /\ length (columns df) < 2) ->
    exists e, run (fold_left (fun w io => snd (read io w)) ios w0)
              = (Raise e, fold_left (fun w io => snd (read io w)) ios w0)).
  { induction H as [|io ios Hio _ IH]; intros [p0 out0] Hk Hs Hd; simpl in *.
    - destruct Hd as [Hd|(df & Hd & L)].
      + rewrite run_unfold. simpl. rewrite Hd. eexists. reflexivity.
      + destruct (run_under_shaped {| self := p0; stdout := out0 |} df Hd L)
          as [msg ->]. eexists. reflexivity.
    - assert (Ep : parse io p0 = parse io p).
      { unfold parse. now rewrite Hk, Hs. }
      rewrite read_unfold, Ep.
      destruct (parse io p) as [df|e]; simpl; apply IH; simpl; eauto. }
  apply G; simpl; auto.
Qed.

(** C5.  A [JSONDataProcessor] whose table has two columns or more but no
    [avgRating]: [read] returns [True], and [run] then raises the
    [KeyError] of [drop] to its caller, leaving the instance as [read] left
    it. *)
Theorem json_run_without_avgRating (io : Readers) (p : Processor)
    (out : list string) (df : DataFrame) :
  kind p = JSON ->
  read_json io (_datasource p) = Return df ->
  2 <= length (columns df) ->
  mem "avgRating" (columns df) = false ->
  let w := {| self := with_dataset p df; stdout := out |} in
  read io {| self := p; stdout := out |} = (Return true, w) /\
  exists msg,
    pandas.drop df ["dateAdded"; "avgRating"] = raise KeyError msg /\
    run w = (raise KeyError msg, w).
Proof.
  intros Hk E L Ha w. split.
  - apply read_ok; auto. unfold parse. now rewrite Hk.
  - destruct (drop_raises df ["dateAdded"; "avgRating"]) as [msg Hm].
    { simpl. rewrite Ha. now rewrite andb_false_r. }
    exists msg. split; auto.
    rewrite run_unfold. subst w. simpl. rewrite Hk.
    unfold batch. simpl. now rewrite Hm.
Qed.

End RunFails.

(** ** [run] on a table with the required columns *)

Section RunSorts.
Context {K : SortKernel}.

Lemma labels_eqb_refl (cs : list string) : labels_eqb cs cs = true.
Proof. now apply labels_eqb_eq. Qed.

(** The first [run]: [ResultTable] becomes the batch. *)
Lemma run_fresh (p : Processor) (out : list string) (df b : DataFrame) :
  _dataset p = Some df ->
  result p = None ->
  batch (kind p) df = Return b ->
  run {| self := p; stdout := out |}
  = (Return tt, {| self := with_result p b; stdout := out |}).
Proof.
  intros Hd Hr E. rewrite run_unfold. simpl.
  rewrite Hd, E, Hr, concat_first. reflexivity.
Qed.



(** C4.  A CSV file that parses to the columns [title], [directedBy],
    [dateAdded] and three rows, read and run once on a new processor.  When
    the two calls return, [ResultTable] has the columns [title],
    [directedBy] and three rows, those of the file without their third
    cell, in descending order of [title].  And they do return when the
    [title] and [directedBy] cells are comparable, as the cells of a parsed
    CSV column are. *)
Theorem csv_three_rows (io : Readers) (datasource : string) (out : list string)
    (r1 r2 r3 : Row) :
  let df := {| columns := ["title"; "directedBy"; "dateAdded"];
               rows := [r1; r2; r3] |} in
  let w := {| self := CsvDataProcessor.__init__ datasource; stdout := out |} in
  read_csv io datasource ";" = Return df ->
  (forall w',
     (ok <- read io ;; run) w = (Return tt, w') ->
     exists b,
       w' = {| self := {| kind := Csv ";"; _datasource := datasource;
                          _dataset := Some df; result := Some b |};
               stdout := out |} /\
       columns b = ["title"; "directedBy"] /\
       nrows b = 3 /\
       in_order false (column "title" b) /\
       Permutation (rows b) (map (select [true; true; false]) [r1; r2; r3]))
  /\
  (sortable (column "title" df) = true ->
   sortable (column "directedBy" df) = true ->
   exists w', (ok <- read io ;; run) w = (Return tt, w')).
Proof.
  intros df w Ep.
  set (p := CsvDataProcessor.__init__ datasource).
  assert (Er : read io w = (Return true, {| self := with_dataset p df; stdout := out |})).
  { apply read_ok; [exact Ep|simpl; lia]. }
  split.
  - intros w' H. unfold bind in H. rewrite Er in H.
    apply run_returns_inv in H as (df' & b & r & Ed & Eb & Ec & ->).
    simpl in *. inversion Ed; subst df'. clear Ed.
    rewrite concat_first in Ec. inversion Ec; subst r. clear Ec.
    exists b. split; [reflexivity|].
    pose proof (batch_perm _ _ _ Eb) as Pb.
    repeat split; auto.
    + apply (batch_columns _ _ _ Eb).
    + unfold nrows. now rewrite (Permutation_length Pb).
    + apply (batch_in_order _ _ _ Eb).
  - intros St Sd.
    assert (Hq : required (Csv ";") df = true).
    { unfold required. cbn [dropped forallb]. rewrite St, Sd. reflexivity. }
    destruct (batch_returns _ _ Hq) as (c & m & b & _ & _ & _ & E).
    eexists. unfold bind. rewrite Er.
    apply (run_fresh (with_dataset p df) out df b eq_refl eq_refl E).
Qed.


End RunSorts.

(** ** [run] again and again *)

Section RunAgain.
Context {K : SortKernel}.

Lemma sort_values_rectangular (df b : DataFrame) (c : string) (asc : bool) :
  pandas.sort_values df c asc = Return b ->
  rectangular df = true -> rectangular b = true.
Proof.
  intros H R. unfold rectangular in *.
  rewrite (sort_values_columns _ _ _ _ H).
  now rewrite (forallb_perm _ _ _ (sort_values_perm _ _ _ _ H)).
Qed.

Lemma batch_rectangular (k : Kind) (df b : DataFrame) :
  batch k df = Return b -> rectangular df = true -> rectangular b = true.
Proof.
  intros H R. apply batch_inv in H as (c & m & Ec & Em & Eb).
  eauto using sort_values_rectangular, drop_rectangular.
Qed.

Lemma map_reindex_id (cs : list string) (rs : list Row) :
  nodupb cs = true ->
  Forall (fun r => length r = length cs) rs ->
  map (pandas.reindex cs cs) rs = rs.
Proof.
  intros N. induction 1 as [|r rs Hr _ IH]; simpl; auto.
  now rewrite reindex_id, IH.
Qed.

Lemma rectangular_Forall (df : DataFrame) :
  rectangular df = true ->
  Forall (fun r => length r = length (columns df)) (rows df).
Proof.
  unfold rectangular. rewrite forallb_forall, Forall_forall.
  intros H r Hr. apply Nat.eqb_eq. auto.
Qed.

(** Stacking the same frame a second time stacks the same rows: the labels
    of the first result already cover it. *)
Lemma concat_again (res : option DataFrame) (b x : DataFrame) :
  pandas.concat [res; Some b] = Return x ->
  rectangular b = true ->
  pandas.concat [Some x; Some b]
  = Return {| columns := columns x;
              rows := rows x ++ skipn (length (rows_of res)) (rows x) |}.
Proof.
  intros H R. destruct res as [r|]; simpl.
  - rewrite concat_two in H.
    destruct (labels_eqb (columns b) (columns r)) eqn:E.
    + inversion H. subst x. clear H. rewrite concat_two. cbn [columns rows].
      rewrite E. now rewrite skipn_app, skipn_all, Nat.sub_diag.
    + destruct (nodupb (columns r) && nodupb (columns b)) eqn:N; [|discriminate].
      apply andb_true_iff in N as [Nr Nb].
      cbv zeta in H. inversion H. subst x. clear H.
      cbn [columns rows rows_of].
      set (u := pandas.union (columns r) (columns b)).
      assert (Nu : nodupb u = true) by now apply nodupb_union.
      rewrite skipn_app, skipn_all2, length_map, Nat.sub_diag
        by (rewrite length_map; auto).
      cbn [skipn app].
      rewrite concat_two. cbn [columns rows].
      destruct (labels_eqb (columns b) u) eqn:Eu.
      * apply labels_eqb_eq in Eu. do 3 f_equal.
        rewrite <- Eu. symmetry. apply map_reindex_id; auto.
        now apply rectangular_Forall.
      * rewrite Nu, Nb. cbv zeta. cbn [andb].
        assert (Ua : pandas.union u (columns b) = u).
        { apply union_absorb. apply forallb_forall. intros c Hc.
          subst u. rewrite mem_union. apply mem_In in Hc. rewrite Hc.
          apply orb_true_r. }
        rewrite Ua. do 2 f_equal. f_equal.
        apply map_reindex_id; auto.
        apply Forall_forall. intros row Hrow.
        apply in_app_iff in Hrow as [Hrow|Hrow];
          apply in_map_iff in Hrow as (r0 & <- & _); apply length_reindex.
  - rewrite concat_first in H. inversion H. subst x.
    rewrite concat_two, labels_eqb_refl. reflexivity.
Qed.

(** C10.  [run] assigns [self.result] and nothing else: [RawTable], the data
    source and the console are as before.  So with [RawTable] fixed, a [run]
    that returned can be followed by another, which returns too and stacks
    under [ResultTable] the very rows the first one stacked. *)
Theorem run_frame (w : World) :
  _dataset (self (snd (run w))) = _dataset (self w) /\
  _datasource (self (snd (run w))) = _datasource (self w) /\
  stdout (snd (run w)) = stdout w /\
  (forall df w1,
     _dataset (self w) = Some df -> rectangular df = true ->
     run w = (Return tt, w1) ->
     exists w2,
       run w1 = (Return tt, w2) /\
       columns_of (result (self w2)) = columns_of (result (self w1)) /\
       rows_of (result (self w2))
       = rows_of (result (self w1))
         ++ skipn (length (rows_of (result (self w)))) (rows_of (result (self w1)))).
Proof.
  destruct (run_keeps_self w) as (_ & Hs & Hd & Ho).
  repeat split; auto.
  intros df w1 Ed R H.
  apply run_returns_inv in H as (df' & b & r & Ed' & Eb & Ec & ->).
  rewrite Ed in Ed'. inversion Ed'; subst df'.
  pose proof (concat_again _ _ _ Ec (batch_rectangular _ _ _ Eb R)) as E2.
  eexists. rewrite run_unfold. cbn [self with_result _dataset kind result stdout].
  rewrite Ed, Eb, E2. split; [reflexivity|]. simpl. auto.
Qed.

(** Along any script the class stays what it was and no dropped label
    enters [ResultTable]. *)
Lemma script_invariant (cs : list Call) (w : World) :
  (forall l, mem l (dropped (kind (self w))) = true ->
             mem l (columns_of (result (self w))) = false) ->
  kind (self (script cs w)) = kind (self w) /\
  (forall l, mem l (dropped (kind (self w))) = true ->
             mem l (columns_of (result (self (script cs w)))) = false).
Proof.
  revert w. induction cs as [|c cs IH]; intros w Inv; [now split|].
  unfold script in *. simpl.
  assert (S : kind (self (step w c)) = kind (self w) /\
              (forall l, mem l (dropped (kind (self w))) = true ->
                         mem l (columns_of (result (self (step w c)))) = false)).
  { destruct c as [io|]; simpl.
    - destruct (read_keeps_result io w) as (Hk & _ & Hr).
      rewrite Hr. auto.
    - destruct (run_keeps_self w) as (Hk & _). split; auto.
      intros l Hl. rewrite run_unfold.
      destruct (_dataset (self w)) as [df|]; simpl; auto.
      destruct (batch _ df) as [b|] eqn:Eb; simpl; auto.
      destruct (pandas.concat _) as [x|] eqn:Ec; simpl; auto.
      destruct (mem l (columns x)) eqn:Hx; auto.
      destruct (concat_appends _ _ _ Ec) as (_ & _ & _ & _ & _ & _ & Hc).
      destruct (Hc l Hx) as [H|H].
      + rewrite Inv in H; auto.
      + rewrite (batch_absent _ _ _ _ Eb Hl) in H. discriminate. }
  destruct S as [Sk Si].
  destruct (IH (step w c)) as [Hk Hi].
  - rewrite Sk. exact Si.
  - split; [congruence|]. intros l Hl. apply Hi. now rewrite Sk.
Qed.

(** C7.  Whatever calls to [read] and [run] an instance receives after its
    construction, [ResultTable] never has a [dateAdded] column, and for a
    [JSONDataProcessor] it never has an [avgRating] column either. *)
Theorem dropped_columns_absent (k : Kind) (datasource : string)
    (out : list string) (cs : list Call) :
  let w := script cs {| self := DataProcessor.__init__ k datasource;
                        stdout := out |} in
  mem "dateAdded" (columns_of (result (self w))) = false /\
  match k with
  | JSON => mem "avgRating" (columns_of (result (self w))) = false
  | _ => True
  end.
Proof.
  intros w.
  assert (H := script_invariant cs
              {| self := DataProcessor.__init__ k datasource; stdout := out |}
              (fun l _ => eq_refl)).
  destruct H as [_ H]. simpl in H. fold w in H. split.
  - apply H. destruct k; reflexivity.
  - destruct k; try exact I. apply H. reflexivity.
Qed.

End RunAgain.

(** ** [read] that fails *)

Section ReadFails.
Context {K : SortKernel}.

(** C1, as the code has it.  When the reader raises, or returns a table of
    fewer than two columns, [read] returns [False] without raising and
    [ResultTable] is untouched.  In the first case the text of the exception
    is printed and [RawTable] keeps the value it had before the call; in the
    second nothing is printed, [RawTable] is the table just parsed, and
    [run] on it raises [KeyError]. *)
Theorem read_failure (io : Readers) (p : Processor) (out : list string) :
  match parse io p with
  | Return df => length (columns df) < 2
  | Raise _ => True
  end ->
  exists w',
    read io {| self := p; stdout := out |} = (Return false, w') /\
    result (self w') = result p /\
    match parse io p with
    | Return df =>
        w' = {| self := with_dataset p df; stdout := out |} /\
        exists msg, run w' = (raise KeyError msg, w')
    | Raise e => w' = {| self := p; stdout := out ++ [str e] |}
    end.
Proof.
  intros H. rewrite read_unfold.
  destruct (parse io p) as [df|e].
  - eexists. apply Nat.ltb_lt in H as L. rewrite L.
    split; [reflexivity|]. split; [reflexivity|].
    split; [reflexivity|]. eapply run_under_shaped; [reflexivity|exact H].
  - eexists. split; [reflexivity|]. split; reflexivity.
Qed.

End ReadFails.

(** ** The claims on sample sources *)

Module Witness.
Import Sample.

(** C1 as first stated fails twice.  A CSV file with the single column
    [title]: [read] returns [False] and the console stays empty, no failure
    detail is printed.  A file that has gone missing after a good [read]:
    [read] returns [False] and prints, but [RawTable] is still the table
    read before, and [run] on it returns. *)
Lemma read_failure_counterexample :
  (parse (holding titles_only) csv = Return titles_only /\
   length (columns titles_only) < 2 /\
   read (holding titles_only) {| self := csv; stdout := [] |}
   = (Return false, {| self := with_dataset csv titles_only; stdout := [] |}))
  /\
  (parse empty (with_dataset csv movies)
   = raise FileNotFoundError "[Errno 2] No such file or directory" /\
   read empty {| self := with_dataset csv movies; stdout := [] |}
   = (Return false,
      {| self := with_dataset csv movies;
         stdout := ["[Errno 2] No such file or directory"] |}) /\
   exists w,
     @run stable_kernel
       {| self := with_dataset csv movies;
          stdout := ["[Errno 2] No such file or directory"] |}
     = (Return tt, w)).
Proof.
  split; [split; [reflexivity|split; [simpl; lia|reflexivity]]|].
  split; [reflexivity|split; [reflexivity|]].
  eexists. vm_compute. reflexivity.
Qed.

(** The key sorted first does not survive the second sort: in the batch of
    [movies], in descending order of [title], the directors are not in
    descending order. *)
Example title_outranks_directedBy :
  @batch stable_kernel (Csv ";") movies = Return sorted_movies /\
  in_order false (column "title" sorted_movies) /\
  ~ in_order false (column "directedBy" sorted_movies).
Proof.
  split; [vm_compute; reflexivity|]. split.
  - unfold in_order. simpl. repeat constructor.
  - unfold in_order. simpl. intros H.
    apply Sorted_inv in H as [H _].
    apply Sorted_inv in H as [_ H]. apply HdRel_inv in H.
    vm_compute in H. discriminate.
Qed.

Lemma read_failure_witness :
  match parse (holding titles_only) csv with
  | Return df => length (columns df) < 2
  | Raise _ => True
  end /\
  exists w',
    read (holding titles_only) {| self := csv; stdout := [] |} = (Return false, w') /\
    result (self w') = result csv /\
    match parse (holding titles_only) csv with
    | Return df =>
        w' = {| self := with_dataset csv df; stdout := [] |} /\
        exists msg, @run stable_kernel w' = (raise KeyError msg, w')
    | Raise e => w' = {| self := csv; stdout := [] ++ [str e] |}
    end.
Proof.
  split; [simpl; lia|].
  apply (@read_failure stable_kernel (holding titles_only) csv []).
  simpl; lia.
Defined.

Lemma read_well_formed_witness :
  parse (holding movies) txt = Return movies /\
  2 <= length (columns movies) /\
  read (holding movies) {| self := txt; stdout := [] |}
  = (Return true, {| self := with_dataset txt movies; stdout := [] |}).
Proof.
  split; [reflexivity|]. split; [simpl; lia|].
  apply (read_well_formed (holding movies) txt [] movies); [reflexivity|simpl; lia].
Defined.

Lemma read_failure_not_atomic_witness :
  (parse (holding titles_only) json = Return titles_only /\
   length (columns titles_only) < 2 /\
   read (holding titles_only) {| self := json; stdout := [] |}
   = (Return false, {| self := with_dataset json titles_only; stdout := [] |}))
  /\
  (parse empty (with_dataset json rated)
   = raise FileNotFoundError "[Errno 2] No such file or directory" /\
   read empty {| self := with_dataset json rated; stdout := [] |}
   = (Return false,
      {| self := with_dataset json rated;
         stdout := ["[Errno 2] No such file or directory"] |})).
Proof.
  split.
  - split; [reflexivity|]. split; [simpl; lia|].
    apply (proj1 (read_failure_not_atomic (holding titles_only) json []));
      [reflexivity|simpl; lia].
  - split; [reflexivity|].
    apply (proj2 (read_failure_not_atomic empty (with_dataset json rated) [])
             (mkException FileNotFoundError "[Errno 2] No such file or directory")).
    reflexivity.
Defined.

Lemma run_before_read_witness :
  _dataset csv = None /\
  @run stable_kernel {| self := csv; stdout := [] |}
  = (raise AttributeError "'NoneType' object has no attribute 'drop'",
     {| self := csv; stdout := [] |}).
Proof.
  split; [reflexivity|].
  apply (@run_before_read stable_kernel csv []). reflexivity.
Defined.

Lemma json_run_without_avgRating_witness :
  kind json = JSON /\
  read_json (holding movies) (_datasource json) = Return movies /\
  2 <= length (columns movies) /\
  mem "avgRating" (columns movies) = false /\
  let w := {| self := with_dataset json movies; stdout := [] |} in
  read (holding movies) {| self := json; stdout := [] |} = (Return true, w) /\
  exists msg,
    pandas.drop movies ["dateAdded"; "avgRating"] = raise KeyError msg /\
    @run stable_kernel w = (raise KeyError msg, w).
Proof.
  split; [reflexivity|]. split; [reflexivity|]. split; [simpl; lia|].
  split; [reflexivity|].
  apply (@json_run_without_avgRating stable_kernel (holding movies) json [] movies);
    [reflexivity|reflexivity|simpl; lia|reflexivity].
Defined.



Lemma csv_three_rows_witness :
  let r1 := [Str "Alien"; Str "Scott"; Int 3] in
  let r2 := [Str "Brazil"; Str "Gilliam"; Int 1] in
  let r3 := [Str "Casino"; Str "Scorsese"; Int 2] in
  let w := {| self := CsvDataProcessor.__init__ "movies.csv"; stdout := [] |} in
  let w' := {| self := {| kind := Csv ";"; _datasource := "movies.csv";
                          _dataset := Some movies; result := Some sorted_movies |};
               stdout := [] |} in
  read_csv (holding movies) "movies.csv" ";" = Return movies /\
  (ok <- read (holding movies) ;; @run stable_kernel) w = (Return tt, w') /\
  (exists b,
     w' = {| self := {| kind := Csv ";"; _datasource := "movies.csv";
                        _dataset := Some movies; result := Some b |};
             stdout := [] |} /\
     columns b = ["title"; "directedBy"] /\
     nrows b = 3 /\
     in_order false (column "title" b) /\
     Permutation (rows b) (map (select [true; true; false]) [r1; r2; r3])) /\
  sortable (column "title" movies) = true /\
  sortable (column "directedBy" movies) = true /\
  exists w'', (ok <- read (holding movies) ;; @run stable_kernel) w = (Return tt, w'').
Proof.
  intros r1 r2 r3 w w'.
  pose proof (@csv_three_rows stable_kernel (holding movies) "movies.csv" []
                r1 r2 r3 eq_refl) as [Right Returns].
  assert (E : (ok <- read (holding movies) ;; @run stable_kernel) w = (Return tt, w'))
    by (vm_compute; reflexivity).
  split; [reflexivity|]. split; [exact E|]. split; [exact (Right w' E)|].
  split; [reflexivity|]. split; [reflexivity|].
  apply Returns; reflexivity.
Defined.


Lemma run_frame_witness :
  let w := {| self := with_dataset txt movies; stdout := [] |} in
  let w1 := {| self := with_result (with_dataset txt movies) sorted_movies;
               stdout := [] |} in
  _dataset (self w) = Some movies /\
  rectangular movies = true /\
  @run stable_kernel w = (Return tt, w1) /\
  exists w2,
    @run stable_kernel w1 = (Return tt, w2) /\
    columns_of (result (self w2)) = columns_of (result (self w1)) /\
    rows_of (result (self w2))
    = rows_of (result (self w1))
      ++ skipn (length (rows_of (result (self w)))) (rows_of (result (self w1))).
Proof.
  intros w w1.
  assert (E : @run stable_kernel w = (Return tt, w1)) by (vm_compute; reflexivity).
  split; [reflexivity|]. split; [reflexivity|]. split; [exact E|].
  apply (proj2 (proj2 (proj2 (@run_frame stable_kernel w))) movies w1);
    [reflexivity|reflexivity|exact E].
Defined.

End Witness.

(** * More of the code *)

(** ** The second kernel is a kernel *)

Lemma Unstable_insert_perm {A} (x : Cell * A) (l : list (Cell * A)) :
  Permutation (Unstable.insert x l) (x :: l).
Proof.
  induction l as [|y l IH]; simpl; auto.
  destruct (cell_leb (fst y) (fst x)); auto.
  rewrite IH. apply perm_swap.
Qed.

Lemma Unstable_sort_perm {A} (l : list (Cell * A)) : Permutation (Unstable.sort l) l.
Proof.
  induction l as [|x l IH]; simpl; auto.
  rewrite Unstable_insert_perm. now constructor.
Qed.

Lemma Unstable_insert_sorted {A} (x : Cell * A) (l : list (Cell * A)) :
  (forall y, In y l -> key_le x y \/ key_le y x) ->
  Sorted key_le l -> Sorted key_le (Unstable.insert x l).
Proof.
  induction l as [|y l IH]; intros T S; simpl.
  - repeat constructor.
  - destruct (cell_leb (fst y) (fst x)) eqn:E.
    + apply Sorted_inv in S as [S Hd]. constructor.
      * apply IH; auto. intros; apply T; simpl; auto.
      * destruct l as [|z l]; simpl; [now constructor|].
        destruct (cell_leb (fst z) (fst x)); constructor; auto.
        now apply HdRel_inv in Hd.
    + constructor; auto. constructor.
      destruct (T y) as [H|H]; simpl; auto. unfold key_le in H. congruence.
Qed.

Lemma Unstable_sort_sorted {A} (l : list (Cell * A)) :
  comparable (map fst l) = true -> Sorted key_le (Unstable.sort l).
Proof.
  intros C.
  assert (T : forall x y, In x l -> In y l -> key_le x y \/ key_le y x).
  { intros x y Hx Hy. apply (comparable_total (map fst l)); auto using in_map. }
  clear C. induction l as [|x l IH]; simpl; [constructor|].
  apply Unstable_insert_sorted.
  - intros y Hy. apply T; simpl; auto.
    right. eapply Permutation_in; [apply Unstable_sort_perm|exact Hy].
  - apply IH. intros; apply T; simpl; auto.
Qed.

Definition unstable_kernel : SortKernel :=
  {| argsort := @Unstable.sort;
     argsort_perm := @Unstable_sort_perm;
     argsort_sorted := @Unstable_sort_sorted |}.

(** ** When [run] returns, and what it raises *)

Section RunDiagnosis.
Context {K : SortKernel}.

Lemma count_zero_absent (t : string) (cs : list string) :
  count t cs = 0 -> mem t cs = false.
Proof.
  induction cs as [|x cs IH]; simpl; auto.
  destruct (String.eqb t x); simpl; [discriminate|auto].
Qed.


Lemma forallb_app_false_l {A} (f : A -> bool) (l l' : list A) :
  forallb f l = false -> forallb f (l ++ l') = false.
Proof. intros H. now rewrite forallb_app, H. Qed.

Lemma needed_missing (k : Kind) (cs : list string) (t : string) :
  In t ["directedBy"; "title"] -> mem t cs = false ->
  forallb (fun l => mem l cs) (needed k) = false.
Proof.
  intros Ht Hm. unfold needed. rewrite forallb_app. cbn [forallb].
  destruct Ht as [<-|[<-|[]]]; rewrite Hm; cbn [andb];
    now rewrite ?andb_false_r.
Qed.

(** What a [KeyError] or a [ValueError] of the first [run] says about
    [RawTable]: a [KeyError] means that a label [run] looks up (a label to
    drop, [directedBy] or [title]) is missing, a [ValueError] that
    [directedBy] or [title] names several columns. *)
Theorem run_raises_because (p : Processor) (out : list string) (df : DataFrame)
    (e : Exception) (w' : World) :
  _dataset p = Some df ->
  result p = None ->
  run {| self := p; stdout := out |} = (Raise e, w') ->
  match exc_type e with
  | KeyError => forallb (fun l => mem l (columns df)) (needed (kind p)) = false
  | ValueError =>
      (1 <? count "directedBy" (columns df)) || (1 <? count "title" (columns df))
      = true
  | _ => True
  end.
Proof.
  intros Hd Hr. rewrite run_unfold. simpl. rewrite Hd, Hr.
  unfold batch.
  destruct (pandas.drop df (dropped (kind p))) as [c|e0] eqn:Ec.
  - destruct (drop_column _ _ _ "directedBy" Ec) as [Cd Vd];
      [apply dropped_not_sorted; simpl; auto|].
    destruct (drop_column _ _ _ "title" Ec) as [Ct Vt];
      [apply dropped_not_sorted; simpl; auto|].
    destruct (pandas.sort_values c "directedBy" _) as [m|e1] eqn:Em.
    + pose proof (sort_values_columns _ _ _ _ Em) as Cm.
      destruct (pandas.sort_values m "title" _) as [b|e2] eqn:Eb.
      * rewrite concat_first. discriminate.
      * intros H. inversion H; subst e2 w'. clear H.
        unfold pandas.sort_values in Eb. rewrite Cm, Ct in Eb.
        destruct (count "title" (columns df)) as [|[|n]] eqn:N.
        -- inversion Eb. simpl.
           apply (needed_missing _ _ "title"); [simpl; auto|].
           now apply count_zero_absent.
        -- destruct (sortable (column "title" m)); [discriminate|].
           inversion Eb. exact I.
        -- inversion Eb. simpl. apply orb_true_r.
    + intros H. inversion H; subst e1 w'. clear H.
      unfold pandas.sort_values in Em. rewrite Cd in Em.
      destruct (count "directedBy" (columns df)) as [|[|n]] eqn:N.
      * inversion Em. simpl.
        apply (needed_missing _ _ "directedBy"); [simpl; auto|].
        now apply count_zero_absent.
      * destruct (sortable (column "directedBy" c)); [discriminate|].
        inversion Em. exact I.
      * inversion Em. reflexivity.
  - intros H. inversion H; subst e0 w'. clear H.
    destruct (forallb (fun l => mem l (columns df)) (dropped (kind p))) eqn:F.
    + rewrite (drop_returns _ _ F) in Ec. discriminate.
    + destruct (drop_raises _ _ F) as [msg Hm]. rewrite Hm in Ec.
      inversion Ec. simpl. unfold needed. now apply forallb_app_false_l.
Qed.

End RunDiagnosis.

(** ** One table, one order *)

Lemma string_leb_trans (a b c : string) :
  String.leb a b = true -> String.leb b c = true -> String.leb a c = true.
Proof.
  unfold String.leb.
  destruct (String.compare a b) eqn:E1; try discriminate;
    destruct (String.compare b c) eqn:E2; try discriminate; intros _ _.
  - apply OrderedTypeEx.String_as_OT.cmp_eq in E1. subst. now rewrite E2.
  - apply OrderedTypeEx.String_as_OT.cmp_eq in E1. subst. now rewrite E2.
  - apply OrderedTypeEx.String_as_OT.cmp_eq in E2. subst. now rewrite E1.
  - apply OrderedTypeEx.String_as_OT.cmp_lt in E1, E2.
    pose proof (OrderedTypeEx.String_as_OT.lt_trans _ _ _ E1 E2) as H.
    apply OrderedTypeEx.String_as_OT.cmp_lt in H.
    unfold OrderedTypeEx.String_as_OT.cmp in H. now rewrite H.
Qed.

Lemma cell_leb_trans (a b c : Cell) :
  cell_leb a b = true -> cell_leb b c = true -> cell_leb a c = true.
Proof.
  destruct a, b, c; simpl; try discriminate.
  - intros H1 H2. apply Z.leb_le in H1, H2. apply Z.leb_le. lia.
  - apply string_leb_trans.
Qed.

Lemma cell_leb_antisym (a b : Cell) :
  cell_leb a b = true -> cell_leb b a = true -> a = b.
Proof.
  destruct a, b; simpl; try discriminate.
  - intros H1 H2. apply Z.leb_le in H1, H2. f_equal. lia.
  - intros H1 H2. f_equal. now apply String.leb_antisym.
Qed.

Lemma precedes_trans (asc : bool) (a b c : Cell) :
  precedes asc a b = true -> precedes asc b c = true -> precedes asc a c = true.
Proof.
  unfold precedes.
  destruct (isna c); auto.
  destruct (isna b); [discriminate|].
  destruct (isna a); [discriminate|].
  destruct asc; eauto using cell_leb_trans.
Qed.

Lemma precedes_antisym (asc : bool) (a b : Cell) :
  precedes asc a b = true -> precedes asc b a = true -> a = b.
Proof.
  unfold precedes.
  destruct a, b; simpl; try discriminate; auto;
    destruct asc; intros H1 H2; auto using cell_leb_antisym.
Qed.

Section OneOrder.
Context {A : Type} (R : A -> A -> Prop).
Hypothesis R_trans : forall x y z, R x y -> R y z -> R x z.

Lemma Sorted_head_least (a : A) (l : list A) :
  Sorted R (a :: l) -> forall x, In x l -> R a x.
Proof.
  intros S. apply Sorted_StronglySorted in S; [|exact R_trans].
  apply StronglySorted_inv in S as [_ F].
  now rewrite Forall_forall in F.
Qed.

(** Two sorted arrangements of the same items are the same list, as long as
    no two different items are tied. *)
Lemma sorted_perm_unique (l1 l2 : list A) :
  (forall x y, In x l1 -> In y l1 -> R x y -> R y x -> x = y) ->
  Sorted R l1 -> Sorted R l2 -> Permutation l1 l2 -> l1 = l2.
Proof.
  revert l2. induction l1 as [|a t1 IH]; intros l2 Anti S1 S2 P.
  - apply Permutation_nil in P. now subst.
  - destruct l2 as [|b t2].
    { apply Permutation_sym, Permutation_nil in P. discriminate. }
    assert (E : a = b).
    { assert (Ia : In a (b :: t2)) by (eapply Permutation_in; [exact P|now left]).
      assert (Ib : In b (a :: t1))
        by (eapply Permutation_in; [apply Permutation_sym; exact P|now left]).
      destruct Ia as [->|Ia]; auto. destruct Ib as [->|Ib]; auto.
      apply Anti; simpl; auto.
      - now apply (Sorted_head_least a t1).
      - now apply (Sorted_head_least b t2). }
    subst b. f_equal. apply IH.
    + intros x y Hx Hy. apply Anti; simpl; auto.
    + now apply Sorted_inv in S1.
    + now apply Sorted_inv in S2.
    + eapply Permutation_cons_inv; eauto.
Qed.

End OneOrder.

Lemma Sorted_map_inv {A B} (R : A -> A -> Prop) (f : B -> A) (l : list B) :
  Sorted R (map f l) -> Sorted (fun x y => R (f x) (f y)) l.
Proof.
  induction l as [|a l IH]; simpl; intros S; constructor.
  - apply IH. now apply Sorted_inv in S.
  - apply Sorted_inv in S as [_ Hd].
    destruct l; simpl in *; constructor. now apply HdRel_inv in Hd.
Qed.

Lemma NoDup_map_eq {A B} (f : A -> B) (l : list A) (x y : A) :
  NoDup (map f l) -> In x l -> In y l -> f x = f y -> x = y.
Proof.
  induction l as [|a l IH]; simpl; [easy|].
  intros N Hx Hy E. inversion N as [|? ? Na Nl]; subst.
  destruct Hx as [->|Hx], Hy as [->|Hy]; auto.
  - exfalso. apply Na. rewrite E. now apply in_map.
  - exfalso. apply Na. rewrite <- E. now apply in_map.
Qed.

(** Rows in order on a column whose cells are all different: only one
    arrangement of them is. *)
Lemma in_order_unique (asc : bool) (c : string) (cs : list string)
    (l1 l2 : list Row) :
  NoDup (map (cell_of c cs) l1) ->
  in_order asc (map (cell_of c cs) l1) ->
  in_order asc (map (cell_of c cs) l2) ->
  Permutation l1 l2 -> l1 = l2.
Proof.
  intros N S1 S2 P.
  apply (sorted_perm_unique
           (fun x y => precedes asc (cell_of c cs x) (cell_of c cs y) = true)).
  - intros x y z. apply precedes_trans.
  - intros x y Hx Hy H1 H2.
    eapply NoDup_map_eq; eauto using precedes_antisym.
  - exact (Sorted_map_inv (fun a b => precedes asc a b = true) _ _ S1).
  - exact (Sorted_map_inv (fun a b => precedes asc a b = true) _ _ S2).
  - exact P.
Qed.

Lemma frame_eq (a b : DataFrame) :
  columns a = columns b -> rows a = rows b -> a = b.
Proof. destruct a, b. simpl. now intros -> ->. Qed.

(** With all cells of the sorted column different, [sort_values] has one
    possible outcome, whatever kernel sorts and however the rows were
    arranged before. *)
Lemma sort_values_unique (K1 K2 : SortKernel) (d1 d2 b1 b2 : DataFrame)
    (c : string) (asc : bool) :
  columns d1 = columns d2 ->
  Permutation (rows d1) (rows d2) ->
  NoDup (column c d1) ->
  @pandas.sort_values K1 d1 c asc = Return b1 ->
  @pandas.sort_values K2 d2 c asc = Return b2 ->
  b1 = b2.
Proof.
  intros Ec P N E1 E2.
  pose proof (@sort_values_columns K1 _ _ _ _ E1) as C1.
  pose proof (@sort_values_columns K2 _ _ _ _ E2) as C2.
  pose proof (@sort_values_perm K1 _ _ _ _ E1) as P1.
  pose proof (@sort_values_perm K2 _ _ _ _ E2) as P2.
  pose proof (@sort_values_in_order K1 _ _ _ _ E1) as O1.
  pose proof (@sort_values_in_order K2 _ _ _ _ E2) as O2.
  apply frame_eq; [congruence|].
  unfold column in *. rewrite C1 in O1. rewrite C2, <- Ec in O2.
  apply (in_order_unique asc c (columns d1)); auto.
  - eapply Permutation_NoDup; [|exact N].
    apply Permutation_map, Permutation_sym, P1.
  - rewrite P1, P. now apply Permutation_sym.
Qed.

Section TitleAlone.
Context {K1 K2 : SortKernel}.

(** When no two rows of [RawTable] have the same [title], the batch does
    not depend on the sorting algorithm, nor on the pass over [directedBy]:
    it is what any kernel makes of the cleaned table sorted by [title]
    alone. *)
Theorem batch_by_title_alone (k : Kind) (df b : DataFrame) :
  NoDup (column "title" df) ->
  @batch K1 k df = Return b ->
  exists cleaned,
    pandas.drop df (dropped k) = Return cleaned /\
    @pandas.sort_values K2 cleaned "title" (ascending k) = Return b.
Proof.
  intros N H. apply batch_inv in H as (c & m & Ec & Em & Eb).
  exists c. split; auto.
  destruct (drop_column _ _ _ "title" Ec) as [Ct Vt];
    [apply dropped_not_sorted; simpl; auto|].
  pose proof (@sort_values_columns K1 _ _ _ _ Em) as Cm.
  pose proof (@sort_values_perm K1 _ _ _ _ Em) as Pm.
  pose proof (sort_values_inv _ _ _ _ Eb) as (Nt & St & _).
  destruct (@sort_values_returns K2 c "title" (ascending k)) as [b' Eb'].
  - congruence.
  - now rewrite <- (sortable_perm _ _ (column_perm "title" _ _ Cm Pm)).
  - rewrite Eb'. f_equal. symmetry.
    apply (sort_values_unique K1 K2 m c b b' "title" (ascending k)); auto.
    eapply Permutation_NoDup; [|rewrite <- Vt in N; exact N].
    apply Permutation_sym, column_perm; auto.
Qed.

(** [sort_data_by_col], both directions.  On a column whose cells are all
    present and all different, the descending order is the ascending order
    read backwards, whichever kernels sort. *)
Theorem descending_is_ascending_reversed (df b1 b2 : DataFrame) (c : string)
    (w w1 w2 : World) :
  NoDup (column c df) ->
  forallb (fun x => negb (isna x)) (column c df) = true ->
  @sort_data_by_col K1 df c false w = (Return b1, w1) ->
  @sort_data_by_col K2 df c true w = (Return b2, w2) ->
  columns b1 = columns b2 /\ rows b1 = rev (rows b2).
Proof.
  unfold sort_data_by_col, call. intros N Hp H1 H2.
  inversion H1 as [[E1 W1]]. inversion H2 as [[E2 W2]]. clear H1 H2.
  pose proof (@sort_values_columns K1 _ _ _ _ E1) as C1.
  pose proof (@sort_values_columns K2 _ _ _ _ E2) as C2.
  pose proof (@sort_values_perm K1 _ _ _ _ E1) as P1.
  pose proof (@sort_values_perm K2 _ _ _ _ E2) as P2.
  pose proof (@sort_values_in_order K1 _ _ _ _ E1) as O1.
  pose proof (@sort_values_in_order K2 _ _ _ _ E2) as O2.
  split; [congruence|].
  unfold column in *. rewrite C1 in O1. rewrite C2 in O2.
  apply (in_order_unique false c (columns df)); auto.
  - eapply Permutation_NoDup; [|exact N].
    apply Permutation_map, Permutation_sym, P1.
  - unfold in_order in *. rewrite map_rev.
    apply Sorted_weaken with (R := fun x y => precedes true y x = true).
    + now apply Sorted_rev.
    + intros x y Hx Hy H.
      assert (Hn : forall z, In z (rev (map (cell_of c (columns df)) (rows b2))) ->
                             isna z = false).
      { intros z Hz. apply in_rev in Hz.
        rewrite forallb_forall in Hp. apply negb_true_iff, Hp.
        eapply Permutation_in; [apply Permutation_map; exact P2|exact Hz]. }
      unfold precedes in *. now rewrite (Hn x Hx), (Hn y Hy) in *.
  - rewrite P1. rewrite <- Permutation_rev. now apply Permutation_sym.
Qed.

End TitleAlone.

Lemma in_order_missing_last (asc : bool) (ks : list Cell) :
  in_order asc ks ->
  exists present missing,
    ks = present ++ missing /\
    forallb (fun x => negb (isna x)) present = true /\
    forallb isna missing = true.
Proof.
  unfold in_order. induction 1 as [|a t S IH Hd].
  - exists [], []. auto.
  - destruct IH as (p & m & -> & Hp & Hm).
    destruct (isna a) eqn:Na.
    + exists [], (a :: p ++ m). simpl. rewrite Na. repeat split; auto.
      destruct p as [|b p]; [exact Hm|].
      exfalso. apply HdRel_inv in Hd. unfold precedes in Hd.
      simpl in Hp. apply andb_true_iff in Hp as [Hb _].
      apply negb_true_iff in Hb. rewrite Hb, Na in Hd. discriminate.
    + exists (a :: p), m. simpl. rewrite Na. auto.
Qed.

(** Rows without a [title] close every batch, ascending or descending: the
    [title] column of a batch is its present values followed by its missing
    ones. *)
Theorem batch_missing_titles_last {K : SortKernel} (k : Kind) (df b : DataFrame) :
  batch k df = Return b ->
  exists present missing,
    column "title" b = present ++ missing /\
    forallb (fun x => negb (isna x)) present = true /\
    forallb isna missing = true /\
    Permutation (present ++ missing) (column "title" df).
Proof.
  intros H.
  destruct (in_order_missing_last _ _ (batch_in_order _ _ _ H))
    as (p & m & E & Hp & Hm).
  exists p, m. repeat split; auto.
  rewrite <- E.
  pose proof (batch_inv _ _ _ H) as (c & by_director & Ec & Em & Eb).
  destruct (drop_column _ _ _ "title" Ec) as [_ Vt];
    [apply dropped_not_sorted; simpl; auto|].
  rewrite <- Vt.
  apply column_perm.
  - now rewrite (sort_values_columns _ _ _ _ Eb), (sort_values_columns _ _ _ _ Em).
  - rewrite (sort_values_perm _ _ _ _ Eb). eapply sort_values_perm; eauto.
Qed.

(** ** What [run] keeps of [ResultTable] *)

Section RunKeeps.
Context {K : SortKernel}.

Lemma concat_keeps (r b x : DataFrame) :
  pandas.concat [Some r; Some b] = Return x ->
  (exists more, columns x = columns r ++ more) /\
  (forall c, mem c (columns r) = true ->
     map (cell_of c (columns x)) (firstn (length (rows r)) (rows x)) = column c r).
Proof.
  rewrite concat_two.
  destruct (labels_eqb (columns b) (columns r)).
  - intros H. inversion H. simpl. split.
    + exists []. now rewrite app_nil_r.
    + intros c _. now rewrite firstn_app, firstn_all, Nat.sub_diag, app_nil_r.
  - destruct (nodupb (columns r) && nodupb (columns b)); [|discriminate].
    intros H. inversion H. simpl. split.
    + eexists. reflexivity.
    + intros c Hc.
      rewrite firstn_app, length_map, Nat.sub_diag, firstn_all2, app_nil_r
        by (rewrite length_map; auto).
      unfold column. rewrite map_map. apply map_ext. intros row.
      apply cell_of_reindex. rewrite mem_union, Hc. reflexivity.
Qed.

(** [run] never removes or moves a column of [ResultTable]: the labels it
    had are the first labels it has afterwards, in the same order, whether
    the call returns or raises. *)
Theorem run_keeps_columns (w : World) :
  exists more,
    columns_of (result (self (snd (run w))))
    = columns_of (result (self w)) ++ more.
Proof.
  rewrite run_unfold.
  destruct (_dataset (self w)) as [df|]; simpl;
    [|exists []; now rewrite app_nil_r].
  destruct (batch _ df) as [b|]; simpl; [|exists []; now rewrite app_nil_r].
  destruct (pandas.concat _) as [x|] eqn:Ec; simpl;
    [|exists []; now rewrite app_nil_r].
  destruct (result (self w)) as [r|]; simpl.
  - now apply concat_keeps in Ec as [Hc _].
  - eexists. reflexivity.
Qed.

Lemma Forall2_same {A} (R : A -> A -> Prop) (l : list A) :
  (forall x, R x x) -> Forall2 R l l.
Proof. intros H. induction l; constructor; auto. Qed.

(** [run] never rewrites the text [ResultTable] holds: after a call that
    returns, the rows it had are still its first rows, and in every column
    they had, each cell that was a text or missing is the same cell.
    (Numbers are left out: pandas may bring them to another type when the
    batch joins them, which cells here do not show.) *)
Theorem run_keeps_text (w w' : World) (c : string) :
  run w = (Return tt, w') ->
  mem c (columns_of (result (self w))) = true ->
  Forall2 (fun before after => is_int before = false -> after = before)
    (map (cell_of c (columns_of (result (self w)))) (rows_of (result (self w))))
    (map (cell_of c (columns_of (result (self w'))))
         (firstn (length (rows_of (result (self w))))
                 (rows_of (result (self w'))))).
Proof.
  intros H Hc. apply run_returns_inv in H as (df & b & x & _ & _ & Ec & ->).
  simpl. destruct (result (self w)) as [r|]; simpl in *; [|discriminate].
  apply concat_keeps in Ec as [_ Hk]. rewrite (Hk c Hc).
  apply Forall2_same. auto.
Qed.

(** [run] is all or nothing.  A call that raises leaves the instance and
    the console exactly as they were, so what [ResultTable] had accumulated
    is not lost; a call that returns has reassigned [self.result] and
    nothing else. *)
Theorem run_is_atomic (w : World) :
  match fst (run w) with
  | Raise _ => snd (run w) = w
  | Return _ =>
      exists r, snd (run w) = {| self := with_result (self w) r; stdout := stdout w |}
  end.
Proof.
  rewrite run_unfold.
  destruct (_dataset (self w)); simpl; auto.
  destruct (batch _ _); simpl; auto.
  destruct (pandas.concat _); simpl; eauto.
Qed.

(** *** [run], [n] times *)




End RunKeeps.

(** ** Sessions *)

Section Sessions.
Context {K : SortKernel}.

Lemma parse_ext (io : Readers) (p q : Processor) :
  kind p = kind q -> _datasource p = _datasource q -> parse io p = parse io q.
Proof. unfold parse. now intros -> ->. Qed.

Lemma step_trace (w : World) (c : Call) :
  kind (self (step w c)) = kind (self w) /\
  _datasource (self (step w c)) = _datasource (self w) /\
  stdout (step w c) = stdout w ++ printed (self w) c /\
  _dataset (self (step w c)) = parsed (self w) (_dataset (self w)) c.
Proof.
  destruct c as [io|]; simpl.
  - destruct w as [p out]. rewrite read_unfold. simpl.
    destruct (parse io p); simpl; repeat split; auto; now rewrite app_nil_r.
  - destruct (run_keeps_self w) as (Hk & Hs & Hd & Ho).
    repeat split; auto. now rewrite app_nil_r.
Qed.

Lemma script_trace (cs : list Call) (w : World) :
  kind (self (script cs w)) = kind (self w) /\
  _datasource (self (script cs w)) = _datasource (self w) /\
  stdout (script cs w) = stdout w ++ flat_map (printed (self w)) cs /\
  _dataset (self (script cs w))
  = fold_left (parsed (self w)) cs (_dataset (self w)).
Proof.
  revert w. induction cs as [|c cs IH]; intros w.
  - simpl. repeat split; auto. now rewrite app_nil_r.
  - unfold script in *. simpl.
    destruct (step_trace w c) as (Sk & Ss & So & Sd).
    destruct (IH (step w c)) as (Hk & Hs & Ho & Hd).
    assert (Ep : forall c', printed (self (step w c)) c' = printed (self w) c').
    { intros [io|]; simpl; auto. now rewrite (parse_ext io _ (self w)). }
    assert (Ed : forall d c', parsed (self (step w c)) d c' = parsed (self w) d c').
    { intros d [io|]; simpl; auto. now rewrite (parse_ext io _ (self w)). }
    repeat split; try congruence.
    + rewrite Ho, So, <- app_assoc. f_equal. f_equal.
      apply flat_map_ext. exact Ep.
    + rewrite Hd, Sd. clear - Ed. generalize (parsed (self w) (_dataset (self w)) c).
      induction cs as [|c' cs IH]; intros d; simpl; auto.
      rewrite Ed. apply IH.
Qed.

(** The data source is fixed at construction: no sequence of [read] and
    [run] calls changes [_datasource], the class of the instance, or the
    separator of a [CsvDataProcessor]. *)
Theorem datasource_immutable (cs : list Call) (w : World) :
  kind (self (script cs w)) = kind (self w) /\
  _datasource (self (script cs w)) = _datasource (self w).
Proof. destruct (script_trace cs w) as (Hk & Hs & _). now split. Qed.

(** The console after a session holds, after what it held before, the text
    of each exception a [read] caught when parsing, in call order, and
    nothing else: [run] never prints, and a [read] that rejects a table for
    having fewer than two columns prints nothing. *)
Theorem console_is_parse_errors (cs : list Call) (w : World) :
  stdout (script cs w) = stdout w ++ flat_map (printed (self w)) cs.
Proof. now destruct (script_trace cs w) as (_ & _ & Ho & _). Qed.

(** [RawTable] after a session is the table of the last [read] whose parse
    did not raise, whether or not that [read] returned [True]; [run] and a
    [read] whose parse raised leave it as it was. *)
Theorem dataset_is_last_parsed (cs : list Call) (w : World) :
  _dataset (self (script cs w))
  = fold_left (parsed (self w)) cs (_dataset (self w)).
Proof. now destruct (script_trace cs w) as (_ & _ & _ & Hd). Qed.

(** Reading again is harmless: a second [read] of an unchanged source
    returns what the first returned and leaves the instance as the first
    left it; only the console may have one more line. *)
Theorem read_again (io : Readers) (w : World) :
  fst (read io (snd (read io w))) = fst (read io w) /\
  self (snd (read io (snd (read io w)))) = self (snd (read io w)).
Proof.
  destruct w as [p out]. rewrite (read_unfold io p out).
  destruct (parse io p) as [df|e] eqn:E; simpl; rewrite read_unfold.
  - rewrite (parse_ext io (with_dataset p df) p), E by reflexivity.
    simpl. split; reflexivity.
  - rewrite E. simpl. split; reflexivity.
Qed.

(** *** Well-formed frames *)

Lemma select_filter {A} (f : A -> bool) (l : list A) :
  select (map f l) l = filter f l.
Proof. induction l as [|a l IH]; simpl; auto. destruct (f a); now rewrite IH. Qed.

Lemma sort_values_tidy (df b : DataFrame) (c : string) (asc : bool) :
  pandas.sort_values df c asc = Return b -> tidy df = true -> tidy b = true.
Proof.
  unfold tidy. intros H T. apply andb_true_iff in T as [R N].
  rewrite (sort_values_rectangular _ _ _ _ H R).
  now rewrite (sort_values_columns _ _ _ _ H).
Qed.

Lemma batch_tidy (k : Kind) (df b : DataFrame) :
  batch k df = Return b -> tidy df = true -> tidy b = true.
Proof.
  intros H T. apply batch_inv in H as (c & m & Ec & Em & Eb).
  eapply sort_values_tidy; [exact Eb|].
  eapply sort_values_tidy; [exact Em|].
  unfold tidy in *. apply andb_true_iff in T as [R N].
  rewrite (drop_rectangular _ _ _ Ec R). simpl.
  apply drop_inv in Ec as [_ ->]. simpl.
  rewrite select_filter. apply nodupb_NoDup, NoDup_filter, nodupb_NoDup, N.
Qed.

Lemma concat_tidy (res : option DataFrame) (b x : DataFrame) :
  pandas.concat [res; Some b] = Return x ->
  tidy_opt res = true -> tidy b = true -> tidy x = true.
Proof.
  destruct res as [r|]; simpl.
  - rewrite concat_two. intros H Tr Tb.
    unfold tidy in *.
    apply andb_true_iff in Tr as [Rr Nr], Tb as [Rb Nb].
    destruct (labels_eqb (columns b) (columns r)) eqn:E.
    + apply labels_eqb_eq in E. inversion H. cbn [columns].
      apply andb_true_iff. split; [|exact Nr].
      unfold rectangular in *. cbn [columns rows]. rewrite forallb_app.
      rewrite E in Rb. apply andb_true_iff. now split.
    + rewrite Nr, Nb in H. inversion H. cbn [columns].
      apply andb_true_iff. split; [|now apply nodupb_union].
      unfold rectangular. cbn [columns rows]. apply forallb_forall. intros row Hrow.
      apply Nat.eqb_eq.
      apply in_app_iff in Hrow as [Hrow|Hrow];
        apply in_map_iff in Hrow as (r0 & <- & _); apply length_reindex.
  - rewrite concat_first. intros H _ Tb. now inversion H; subst.
Qed.


Lemma step_tidy (w : World) (c : Call) :
  tidy_call c ->
  tidy_opt (_dataset (self w)) = true ->
  tidy_opt (result (self w)) = true ->
  tidy_opt (_dataset (self (step w c))) = true /\
  tidy_opt (result (self (step w c))) = true.
Proof.
  intros Tc Td Tr. destruct c as [io|]; simpl in *.
  - destruct w as [p out]. rewrite read_unfold.
    destruct (parse io p) as [df|e] eqn:E; simpl; auto.
    split; auto. eapply Tc; eauto.
  - rewrite run_unfold.
    destruct (_dataset (self w)) as [df|] eqn:Ed; simpl; auto.
    + destruct (batch _ df) as [b|] eqn:Eb; simpl; [|rewrite Ed; auto].
      destruct (pandas.concat _) as [x|] eqn:Ec; simpl; rewrite Ed; auto.
      split; auto. eapply concat_tidy; eauto. eapply batch_tidy; eauto.
    + rewrite Ed. auto.
Qed.

(** Frames stay well formed.  If every table the readers return has one
    cell per label in each row and no label twice, then so have [RawTable]
    and [ResultTable] after any sequence of [read] and [run] calls: stacking
    batches with different labels fills the gaps and keeps the rows
    rectangular. *)
Theorem frames_stay_tidy (cs : list Call) (w : World) :
  Forall tidy_call cs ->
  tidy_opt (_dataset (self w)) = true ->
  tidy_opt (result (self w)) = true ->
  tidy_opt (_dataset (self (script cs w))) = true /\
  tidy_opt (result (self (script cs w))) = true.
Proof.
  intros F. revert w. induction F as [|c cs Tc _ IH]; intros w Td Tr; [now split|].
  unfold script in *. simpl.
  destruct (step_tidy w c Tc Td Tr) as [Sd Sr]. now apply IH.
Qed.


End Sessions.

(** ** The helpers on their own *)

Lemma select_select {A} (f1 f2 : string -> bool) (cs : list string) (r : list A) :
  select (map f2 (select (map f1 cs) cs)) (select (map f1 cs) r)
  = select (map (fun c => f1 c && f2 c) cs) r.
Proof.
  revert r. induction cs as [|x cs IH]; intros r; simpl; auto.
  destruct r as [|v r]; simpl.
  - destruct (f1 x); simpl; auto. destruct (select _ _); auto.
  - destruct (f1 x); simpl; [destruct (f2 x)|]; now rewrite IH.
Qed.

Lemma select_all {A} (cs : list string) (r : list A) :
  length r = length cs -> select (map (fun _ => true) cs) r = r.
Proof.
  revert r. induction cs as [|x cs IH]; intros [|v r]; simpl; try easy.
  intros L. f_equal. apply IH. lia.
Qed.

(** [remove_col_by_name] cannot be repeated: once the named columns are
    gone, removing them again raises [KeyError]. *)
Theorem remove_col_twice_raises (df c : DataFrame) (colname : list string)
    (w w1 : World) :
  colname <> [] ->
  remove_col_by_name (Some df) colname w = (Return c, w1) ->
  exists msg,
    remove_col_by_name (Some c) colname w1 = (raise KeyError msg, w1).
Proof.
  unfold remove_col_by_name, call. intros Hne H.
  assert (Ec : pandas.drop df colname = Return c) by (now inversion H).
  clear H.
  destruct colname as [|l ls]; [contradiction|].
  destruct (drop_raises c (l :: ls)) as [msg Hm].
  - simpl. rewrite (drop_absent _ _ _ l Ec); [reflexivity|].
    simpl. now rewrite String.eqb_refl.
  - exists msg. now rewrite Hm.
Qed.

(** Removing columns in two steps is removing them in one: if [colname1]
    and then [colname2] can be removed, removing both lists at once returns
    the same table.  So the one call of [JSONDataProcessor.run] is its two
    labels removed one after the other. *)
Theorem remove_col_by_steps (df c1 c2 : DataFrame) (colname1 colname2 : list string)
    (w w1 w2 : World) :
  remove_col_by_name (Some df) colname1 w = (Return c1, w1) ->
  remove_col_by_name (Some c1) colname2 w1 = (Return c2, w2) ->
  remove_col_by_name (Some df) (colname1 ++ colname2) w = (Return c2, w).
Proof.
  unfold remove_col_by_name, call. intros H1 H2.
  assert (E1 : pandas.drop df colname1 = Return c1) by (now inversion H1).
  assert (E2 : pandas.drop c1 colname2 = Return c2) by (now inversion H2).
  clear H1 H2. f_equal.
  apply drop_inv in E1 as [F1 ->]. apply drop_inv in E2 as [F2 ->].
  cbn [columns rows] in *.
  rewrite drop_returns.
  - f_equal. apply frame_eq; cbn [columns rows].
    + rewrite select_select. f_equal. apply map_ext. intros x.
      now rewrite mem_app, negb_orb.
    + rewrite map_map. apply map_ext. intros r.
      rewrite select_select. f_equal. apply map_ext. intros x.
      now rewrite mem_app, negb_orb.
  - rewrite forallb_app, F1. cbn [andb].
    rewrite forallb_forall in *. intros l Hl.
    specialize (F2 l Hl). rewrite mem_select in F2.
    now apply andb_true_iff in F2 as [F2 _].
Qed.

(** Removing no column returns the table as it is. *)
Theorem remove_no_col (df : DataFrame) (w : World) :
  rectangular df = true ->
  remove_col_by_name (Some df) [] w = (Return df, w).
Proof.
  intros R. unfold remove_col_by_name, call, pandas.drop. cbn [filter].
  f_equal. f_equal. apply frame_eq; cbn [columns rows mem existsb negb].
  - now apply select_all.
  - rewrite <- (map_id (rows df)) at 2. apply map_ext_in. intros r Hr.
    apply select_all. unfold rectangular in R. rewrite forallb_forall in R.
    apply Nat.eqb_eq. auto.
Qed.

Lemma print_result_unfold (to_string : DataFrame -> string) (w : World) :
  print_result to_string w
  = (Return tt,
     {| self := self w;
        stdout :=
          stdout w
          ++ [((match kind (self w) with
                | Csv _ => "Running CSV-file processor!"
                | Txt => "Running TXT-file processor!"
                | JSON => "Running JSON-file processor!"
                end) ++ nl ++ " "
               ++ match result (self w) with
                  | Some df => to_string df
                  | None => "None"
                  end)%string] |}).
Proof.
  destruct w as [[k ds d r] out]. unfold print_result. simpl.
  destruct k; unfold CsvDataProcessor.print_result, TxtDataProcessor.print_result,
    JSONDataProcessor.print_result, bind, get_self, print2, print, str_of; simpl;
    reflexivity.
Qed.

Section Observer.
Context {K : SortKernel}.

(** What a call does to the instance does not depend on the console. *)
Lemma step_self (p : Processor) (out out' : list string) (c : Call) :
  self (step {| self := p; stdout := out |} c)
  = self (step {| self := p; stdout := out' |} c).
Proof.
  destruct c as [io|]; simpl.
  - rewrite !read_unfold. destruct (parse io p); reflexivity.
  - rewrite !run_unfold. simpl.
    destruct (_dataset p); simpl; auto.
    destruct (batch _ _); simpl; auto.
    destruct (pandas.concat _); simpl; auto.
Qed.

Lemma script_self (cs : list Call) (p : Processor) (out out' : list string) :
  self (script cs {| self := p; stdout := out |})
  = self (script cs {| self := p; stdout := out' |}).
Proof.
  revert p out out'. induction cs as [|c cs IH]; intros p out out'; auto.
  unfold script in *. simpl.
  pose proof (step_self p out out' c) as E.
  destruct (step {| self := p; stdout := out |} c) as [p1 o1].
  destruct (step {| self := p; stdout := out' |} c) as [p2 o2].
  simpl in E. subst p2. apply IH.
Qed.

(** [print_result] only looks.  However many times, and wherever between
    the calls to [read] and [run], the result is printed, also before the
    first [read], the instance ends as it does without the printing:
    [RawTable] and [ResultTable] are those of the [read] and [run] calls
    alone. *)
Theorem print_result_observes (acts : list Action) (w : World) :
  self (session acts w) = self (script (calls_of acts) w).
Proof.
  revert w. induction acts as [|a acts IH]; intros w; auto.
  unfold session, script in *. destruct a as [c|to_string]; simpl.
  - apply IH.
  - rewrite IH, print_result_unfold. simpl.
    destruct w as [p out]. apply script_self.
Qed.

End Observer.

(** ** The further properties on sample sources *)

Module OnSamples.
Import Sample.

(** Where two rows share a [title], the kernel shows: the stable kernel and
    the one that inserts after the ties return different batches. *)
Example tied_titles_depend_on_kernel :
  @batch stable_kernel (Csv ";") remakes <> @batch unstable_kernel (Csv ";") remakes.
Proof. vm_compute. discriminate. Qed.

Lemma holding_tidy (df : DataFrame) :
  tidy df = true -> tidy_call (CallRead (holding df)).
Proof.
  intros T p d H. unfold parse in H.
  destruct (kind p); simpl in H; inversion H; subst; exact T.
Defined.

Lemma empty_tidy : tidy_call (CallRead empty).
Proof.
  intros p d H. unfold parse in H. destruct (kind p); simpl in H; discriminate.
Defined.

Ltac distinct := repeat constructor; simpl; intuition discriminate.

Lemma run_without_successful_read_witness :
  let p := DataProcessor.__init__ (Csv ";") "movies.csv" in
  let ios := [holding titles_only; empty] in
  let w := fold_left (fun w io => snd (read io w)) ios {| self := p; stdout := [] |} in
  Forall (fun io => match parse io p with
                    | Return df => length (columns df) < 2
                    | Raise _ => True
                    end) ios /\
  exists e, @run stable_kernel w = (Raise e, w).
Proof.
  intros p ios w.
  assert (F : Forall (fun io => match parse io p with
                                | Return df => length (columns df) < 2
                                | Raise _ => True
                                end) ios).
  { repeat constructor. }
  split; [exact F|].
  exact (@run_without_successful_read stable_kernel (Csv ";") "movies.csv" [] ios F).
Defined.

Lemma run_raises_because_witness :
  let p := with_dataset csv untitled in
  let w := {| self := p; stdout := [] |} in
  _dataset p = Some untitled /\
  result p = None /\
  @run stable_kernel w = (Raise (mkException KeyError "'title'"), w) /\
  forallb (fun l => mem l (columns untitled)) (needed (kind p)) = false.
Proof.
  intros p w.
  assert (E : @run stable_kernel w = (Raise (mkException KeyError "'title'"), w))
    by (vm_compute; reflexivity).
  split; [reflexivity|]. split; [reflexivity|]. split; [exact E|].
  exact (@run_raises_because stable_kernel p [] untitled _ w eq_refl eq_refl E).
Defined.

Lemma batch_by_title_alone_witness :
  NoDup (column "title" movies) /\
  @batch stable_kernel (Csv ";") movies = Return sorted_movies /\
  exists cleaned,
    pandas.drop movies (dropped (Csv ";")) = Return cleaned /\
    @pandas.sort_values unstable_kernel cleaned "title" (ascending (Csv ";"))
    = Return sorted_movies.
Proof.
  assert (N : NoDup (column "title" movies)) by distinct.
  assert (E : @batch stable_kernel (Csv ";") movies = Return sorted_movies)
    by (vm_compute; reflexivity).
  split; [exact N|]. split; [exact E|].
  exact (@batch_by_title_alone stable_kernel unstable_kernel (Csv ";") movies
           sorted_movies N E).
Defined.

Lemma descending_is_ascending_reversed_witness :
  let w := {| self := csv; stdout := [] |} in
  let down := {| columns := columns movies; rows := rev (rows movies) |} in
  NoDup (column "title" movies) /\
  forallb (fun x => negb (isna x)) (column "title" movies) = true /\
  @sort_data_by_col stable_kernel movies "title" false w = (Return down, w) /\
  @sort_data_by_col unstable_kernel movies "title" true w = (Return movies, w) /\
  columns down = columns movies /\ rows down = rev (rows movies).
Proof.
  intros w down.
  assert (N : NoDup (column "title" movies)) by distinct.
  assert (E1 : @sort_data_by_col stable_kernel movies "title" false w = (Return down, w))
    by (vm_compute; reflexivity).
  assert (E2 : @sort_data_by_col unstable_kernel movies "title" true w = (Return movies, w))
    by (vm_compute; reflexivity).
  split; [exact N|]. split; [reflexivity|]. split; [exact E1|]. split; [exact E2|].
  exact (@descending_is_ascending_reversed stable_kernel unstable_kernel
           movies down movies "title" w w w N eq_refl E1 E2).
Defined.

Lemma batch_missing_titles_last_witness :
  let b := {| columns := ["title"; "directedBy"];
              rows := [ [Str "Casino"; Str "Scorsese"];
                        [Str "Brazil"; Str "Gilliam"];
                        [NaN; Str "Scott"] ] |} in
  @batch stable_kernel (Csv ";") gaps = Return b /\
  exists present missing,
    column "title" b = present ++ missing /\
    forallb (fun x => negb (isna x)) present = true /\
    forallb isna missing = true /\
    Permutation (present ++ missing) (column "title" gaps).
Proof.
  intros b.
  assert (E : @batch stable_kernel (Csv ";") gaps = Return b)
    by (vm_compute; reflexivity).
  split; [exact E|].
  exact (@batch_missing_titles_last stable_kernel (Csv ";") gaps b E).
Defined.


Lemma run_keeps_text_witness :
  let w := {| self := with_result (with_dataset csv rated) sorted_movies;
              stdout := [] |} in
  let w' := snd (@run stable_kernel w) in
  @run stable_kernel w = (Return tt, w') /\
  mem "title" (columns_of (result (self w))) = true /\
  Forall2 (fun before after => is_int before = false -> after = before)
    (map (cell_of "title" (columns_of (result (self w)))) (rows_of (result (self w))))
    (map (cell_of "title" (columns_of (result (self w'))))
         (firstn (length (rows_of (result (self w))))
                 (rows_of (result (self w'))))).
Proof.
  intros w w'.
  assert (E : @run stable_kernel w = (Return tt, w')) by (vm_compute; reflexivity).
  split; [exact E|]. split; [reflexivity|].
  exact (@run_keeps_text stable_kernel w w' "title" E eq_refl).
Defined.

Lemma frames_stay_tidy_witness :
  let cs := [CallRead (holding movies); CallRun; CallRead (holding rated); CallRun;
             CallRead empty; CallRun] in
  let w := {| self := csv; stdout := [] |} in
  Forall tidy_call cs /\
  tidy_opt (_dataset (self w)) = true /\
  tidy_opt (result (self w)) = true /\
  tidy_opt (_dataset (self (@script stable_kernel cs w))) = true /\
  tidy_opt (result (self (@script stable_kernel cs w))) = true.
Proof.
  intros cs w.
  assert (F : Forall tidy_call cs).
  { repeat constructor; try exact I; try exact empty_tidy;
      apply holding_tidy; reflexivity. }
  split; [exact F|]. split; [reflexivity|]. split; [reflexivity|].
  exact (@frames_stay_tidy stable_kernel cs w F eq_refl eq_refl).
Defined.


Lemma remove_col_twice_raises_witness :
  let w := {| self := csv; stdout := [] |} in
  let c := {| columns := ["title"; "directedBy"];
              rows := [ [Str "Alien"; Str "Scott"];
                        [Str "Brazil"; Str "Gilliam"];
                        [Str "Casino"; Str "Scorsese"] ] |} in
  ["dateAdded"] <> [] /\
  remove_col_by_name (Some movies) ["dateAdded"] w = (Return c, w) /\
  exists msg,
    remove_col_by_name (Some c) ["dateAdded"] w = (raise KeyError msg, w).
Proof.
  intros w c.
  assert (N : ["dateAdded"] <> @nil string) by discriminate.
  split; [exact N|]. split; [reflexivity|].
  exact (remove_col_twice_raises movies c ["dateAdded"] w w N eq_refl).
Defined.

Lemma remove_col_by_steps_witness :
  let w := {| self := json; stdout := [] |} in
  let c1 := {| columns := ["title"; "directedBy"; "avgRating"];
               rows := [ [Str "Alien"; Str "Scott"; Int 8];
                         [Str "Casino"; Str "Scorsese"; Int 8];
                         [Str "Brazil"; Str "Gilliam"; Int 7] ] |} in
  let c2 := {| columns := ["title"; "directedBy"];
               rows := [ [Str "Alien"; Str "Scott"];
                         [Str "Casino"; Str "Scorsese"];
                         [Str "Brazil"; Str "Gilliam"] ] |} in
  remove_col_by_name (Some rated) ["dateAdded"] w = (Return c1, w) /\
  remove_col_by_name (Some c1) ["avgRating"] w = (Return c2, w) /\
  remove_col_by_name (Some rated) (["dateAdded"] ++ ["avgRating"]) w = (Return c2, w).
Proof.
  intros w c1 c2. split; [reflexivity|]. split; [reflexivity|].
  exact (remove_col_by_steps rated c1 c2 ["dateAdded"] ["avgRating"] w w w
           eq_refl eq_refl).
Defined.

Lemma remove_no_col_witness :
  rectangular movies = true /\
  remove_col_by_name (Some movies) [] {| self := csv; stdout := [] |}
  = (Return movies, {| self := csv; stdout := [] |}).
Proof.
  split; [reflexivity|].
  exact (remove_no_col movies {| self := csv; stdout := [] |} eq_refl).
Defined.

End OnSamples.
